(** * planex: pin-file generation ([planex/cmd/pin.py]) and Debian rules
    generation ([planex/debianrules.py]), shallowly embedded.

    Python strings are Rocq [string]s (byte strings, as under Python 2);
    Python dicts are association lists with Python's insertion semantics
    ([d[k] = v] replaces the value of an existing key in place and appends
    a new key at the end). *)

From Stdlib Require Import String Ascii List Bool Arith Lia.
Import ListNotations.
Open Scope list_scope.
Open Scope string_scope.
Set Warnings "-register-all".

(* ------------------------------------------------------------------ *)
(** ** Python string primitives *)

Module Py.

Definition nl : string := String "010"%char EmptyString.
Definition tab : string := String "009"%char EmptyString.

(** [s.startswith(p)] *)
Fixpoint startswith (p s : string) : bool :=
  match p, s with
  | EmptyString, _ => true
  | String _ _, EmptyString => false
  | String c p', String d s' => Ascii.eqb c d && startswith p' s'
  end.

(** [sub in s] *)
Fixpoint contains (sub s : string) : bool :=
  startswith sub s ||
  match s with
  | EmptyString => false
  | String _ s' => contains sub s'
  end.

(** [s.split(c)] for a one-character separator [c]. *)
Fixpoint split (c : ascii) (s : string) : list string :=
  match s with
  | EmptyString => [EmptyString]
  | String d s' =>
      if Ascii.eqb d c then EmptyString :: split c s'
      else match split c s' with
           | h :: t => String d h :: t
           | [] => [String d EmptyString]
           end
  end.

(** [s.count(c)] for a one-character [c]. *)
Fixpoint count (c : ascii) (s : string) : nat :=
  match s with
  | EmptyString => 0
  | String d s' => (if Ascii.eqb d c then 1 else 0) + count c s'
  end.

(** [s.replace(old, new)]: scan left to right; at each position where
    [old] starts, emit [new] and skip [length old] characters, otherwise
    copy one character.  [skip] counts the characters of a match that
    remain to be skipped. *)
Fixpoint replace_from (old new : string) (skip : nat) (s : string) : string :=
  match s with
  | EmptyString => EmptyString
  | String c s' =>
      match skip with
      | S k => replace_from old new k s'
      | O =>
          if startswith old s
          then new ++ replace_from old new (pred (String.length old)) s'
          else String c (replace_from old new 0 s')
      end
  end.

(** An empty [old] inserts [new] around every character. *)
Fixpoint interleave (new s : string) : string :=
  match s with
  | EmptyString => new
  | String c s' => new ++ String c (interleave new s')
  end.

Definition replace (old new s : string) : string :=
  match old with
  | EmptyString => interleave new s
  | _ => replace_from old new 0 s
  end.

(** Whitespace of a Python 2 byte string: space, \t, \n, \v, \f, \r. *)
Definition isspace (c : ascii) : bool :=
  let n := nat_of_ascii c in Nat.eqb n 32 || (Nat.leb 9 n && Nat.leb n 13).

Fixpoint lstrip (s : string) : string :=
  match s with
  | EmptyString => EmptyString
  | String c s' => if isspace c then lstrip s' else s
  end.

Fixpoint rstrip (s : string) : string :=
  match s with
  | EmptyString => EmptyString
  | String c s' =>
      let r := rstrip s' in
      match r with
      | EmptyString => if isspace c then EmptyString else String c EmptyString
      | _ => String c r
      end
  end.

(** [s.strip()] *)
Definition strip (s : string) : string := rstrip (lstrip s).

(** [re.sub("^", "\t", s, flags=re.MULTILINE)]: [^] matches at the start
    of the string and right after every newline. *)
Fixpoint sub_bol_tail (ins s : string) : string :=
  match s with
  | EmptyString => EmptyString
  | String c s' =>
      if Ascii.eqb c "010"%char then String c (ins ++ sub_bol_tail ins s')
      else String c (sub_bol_tail ins s')
  end.

Definition re_sub_bol (ins s : string) : string := ins ++ sub_bol_tail ins s.

(** Python dicts as association lists. *)
Fixpoint dict_get {V} (k : string) (d : list (string * V)) : option V :=
  match d with
  | [] => None
  | (k', v) :: d' => if String.eqb k k' then Some v else dict_get k d'
  end.

Fixpoint dict_set {V} (k : string) (v : V) (d : list (string * V))
  : list (string * V) :=
  match d with
  | [] => [(k, v)]
  | (k', v') :: d' =>
      if String.eqb k k' then (k, v) :: d' else (k', v') :: dict_set k v d'
  end.

End Py.

Import Py.

(** Python exceptions raised by the code, and results that may raise. *)
Inductive exn :=
| ValueError (msg : string)
| KeyError (key : string).

Inductive result (A : Type) :=
| Ok (a : A)
| Err (e : exn).
Arguments Ok {A} a.
Arguments Err {A} e.

(* ------------------------------------------------------------------ *)
(** ** [planex/cmd/pin.py] *)

(** The JSON-like values stored in a pin file. *)
Inductive pyval :=
| PStr (s : string)
| PNone
| PDict (d : list (string * pyval)).

Definition pindict := list (string * pyval).

(** A resource of [spec.resources_dict()] (classes of [planex.spec]).
    [res_is_git] is the outcome of
    [isinstance(source, (GitBlob, GitArchive, GitPatchqueue))] and
    [res_is_archive] that of [isinstance(source, Archive)]; [res_commitish]
    and [res_prefix] are the attribute values read under those tests. *)
Record resource := {
  res_url : string;
  res_is_git : bool;
  res_commitish : pyval;
  res_is_archive : bool;
  res_prefix : pyval
}.

(** An rpm header, as tag/value pairs; it is only handed to
    [mappkgname.map_package_name]. *)
Definition rpm_header := list (string * string).

(** The parts of a loaded [planex.spec.Spec] that the code reads.
    [resources_dict] is a dict: its names are distinct. *)
Record Spec := {
  resources_dict : list (string * resource);
  build : string;
  install : string;
  clean : string;
  sourceHeader : rpm_header
}.

(** The parsed command line ([--source-override], [--patchqueue-override]). *)
Record Args := {
  source : option string;
  patchqueue : option string
}.

Definition repo_or_path (arg : string) : result (string * option string) :=
  if startswith "ssh://" arg then
    let split := Py.split "#" arg in
    if Nat.ltb 2 (List.length split) || Nat.eqb (List.length split) 0 then
      Err (ValueError ("Expected URL or ssh://URL#commitish but got " ++ arg))
    else match split with
         | [_] => Ok (arg, None)
         | [u; c] => Ok (u, Some c)
         | _ => Ok (arg, None) (* unreachable: 1 <= len split <= 2 *)
         end
  else Ok (arg, None).

(** The body of the [for name, source in spec.resources_dict().items()]
    loop (lines 75-86). *)
Definition pin_step (args : Args) (pinfile : pindict)
    (item : string * resource) : pindict :=
  let (name, src) := item in
  if (match patchqueue args with Some _ => true | None => false end)
     && contains "PatchQueue" name then pinfile
  else if contains "Patch" name && negb (contains "PatchQueue" name)
  then pinfile
  else
    let e := [("URL", PStr (res_url src))] in
    let e := if res_is_git src then dict_set "commititsh" (res_commitish src) e
             else e in
    let e := if res_is_archive src then dict_set "prefix" (res_prefix src) e
             else e in
    dict_set name (PDict e) pinfile.

(** [pinfile[key] = {"URL": url}] followed by
    [pinfile[key]["commitish"] = commitish] when it is not [None]. *)
Definition override_entry (url : string) (commitish : option string) : pindict :=
  let e := [("URL", PStr url)] in
  match commitish with
  | Some c => dict_set "commitish" (PStr c) e
  | None => e
  end.

Definition get_pin_content (args : Args) (spec : Spec) : result pindict :=
  let pinfile := [("SchemaVersion", PStr "3")] in
  match source args with
  | Some src =>
      match repo_or_path src with
      | Err e => Err e
      | Ok (url, commitish) =>
          Ok (dict_set "Source0" (PDict (override_entry url commitish)) pinfile)
      end
  | None =>
      let pinfile := fold_left (pin_step args) (resources_dict spec) pinfile in
      match patchqueue args with
      | None => Ok pinfile
      | Some pq =>
          match repo_or_path pq with
          | Err e => Err e
          | Ok (url, commitish) =>
              let pinfile :=
                dict_set "PatchQueue0" (PDict (override_entry url commitish))
                  pinfile in
              (* [pinfile["Archive0"] = pinfile["PatchQueue0"]]: the two keys
                 share one dict, which is not mutated afterwards. *)
              match dict_get "PatchQueue0" pinfile with
              | Some v => Ok (dict_set "Archive0" v pinfile)
              | None => Err (KeyError "PatchQueue0")
              end
          end
      end
  end.

(* ------------------------------------------------------------------ *)
(** ** [planex.tree.Tree] *)

(** [planex.tree.Tree]: an ordered mapping from relative output path to
    accumulated text content plus a permission value. *)
Module Tree.

Inductive permission :=
| PermDefault
| PermMode (mode : nat).

Definition t := list (string * (string * permission)).

Definition empty : t := [].

(** Modelled from the spec: the content a [planex.tree.Tree] holds under
    [path] ([""] when absent); the source of [planex.tree] is missing. *)
Definition contents (path : string) (tree : t) : string :=
  match dict_get path tree with
  | Some (c, _) => c
  | None => ""
  end.

(** Modelled from the spec: [planex.tree.Tree.append(path, content[,
    permissions=...])], whose source is missing.  The spec says appends to
    the same path concatenate content in call order with no implicit
    separator, the permission being non-executable by default and an
    explicit mode for helper scripts. *)
Definition append (path content : string) (perm : permission) (tree : t) : t :=
  dict_set path (contents path tree ++ content, perm) tree.

End Tree.

(* ------------------------------------------------------------------ *)
(** ** [planex/debianrules.py] *)

(** The collaborators [debianrules] calls: [mappkgname.map_package_name],
    [rpmextra.files_from_spec] (a dict from keys to pattern lists),
    [rpm.expandMacro] and [os.path.normpath]. *)
Record Externals := {
  map_package_name : rpm_header -> string;
  files_from_spec : string -> string -> list (string * list string);
  expandMacro : string -> string;
  normpath : string -> string
}.

(** A line of text: [s + "\n"]. *)
Definition ln (s : string) : string := s ++ nl.

Definition BUILD_ROOT : string := "$RPM_BUILD_ROOT".
Definition DESTDIR : string := "${DESTDIR}".
Definition mode_755 : nat := 493.

Definition ocaml_rules_preamble_rule : string :=
  ln "#!/usr/bin/make -f" ++
  ln "" ++
  ln "#include /usr/share/cdbs/1/rules/debhelper.mk" ++
  ln "#include /usr/share/cdbs/1/class/makefile.mk" ++
  ln "#include /usr/share/cdbs/1/rules/ocaml.mk" ++
  ln "" ++
  ln "export DH_VERBOSE=1" ++
  ln "export DH_OPTIONS" ++
  ln "export DESTDIR=$(CURDIR)/debian/tmp" ++
  ln "%:" ++
  ln (tab ++ "dh $@ --with ocaml --with python2") ++
  ln "".

Definition ocaml_rules_preamble (_ : Spec) (tree : Tree.t) : Tree.t :=
  let rule := ocaml_rules_preamble_rule in
  Tree.append "debian/rules" rule Tree.PermDefault tree.

Definition rules_configure_rule : string :=
  ln ".PHONY: override_dh_auto_configure" ++
  ln "override_dh_auto_configure:" ++
  ln "".

Definition rules_configure_from_spec (_ : Spec) (tree : Tree.t) : Tree.t :=
  let rule := rules_configure_rule in
  Tree.append "debian/rules" rule Tree.PermDefault tree.

Definition rules_build_rule : string :=
  ln ".PHONY: override_dh_auto_build" ++
  ln "override_dh_auto_build:" ++
  ln (tab ++ "debian/build.sh") ++
  ln "".

Definition rules_build_helper (spec : Spec) : string :=
  ln "#!/bin/sh" ++
  ln "unset CFLAGS" ++
  replace BUILD_ROOT DESTDIR (build spec).

(** [if not spec.build: return {}] leaves the tree untouched. *)
Definition rules_build_from_spec (spec : Spec) (tree : Tree.t) : Tree.t :=
  match build spec with
  | EmptyString => tree
  | _ =>
      let rule := rules_build_rule in
      let helper := rules_build_helper spec in
      let tree := Tree.append "debian/rules" rule Tree.PermDefault tree in
      Tree.append "debian/build.sh" helper (Tree.PermMode mode_755) tree
  end.

Definition rules_install_rule : string :=
  ln ".PHONY: override_dh_auto_install" ++
  ln "override_dh_auto_install:" ++
  ln (tab ++ "debian/install.sh") ++
  ln "".

Definition rules_install_helper (spec : Spec) : string :=
  ln "#!/bin/sh" ++ replace BUILD_ROOT DESTDIR (install spec).

Definition rules_install_from_spec (spec : Spec) (tree : Tree.t) : Tree.t :=
  let rule := rules_install_rule in
  let helper := rules_install_helper spec in
  let tree := Tree.append "debian/rules" rule Tree.PermDefault tree in
  Tree.append "debian/install.sh" helper (Tree.PermMode mode_755) tree.

Definition rules_dh_install_rule (ext : Externals) (spec : Spec)
    (specpath : string) : string :=
  let rule :=
    ln ".PHONY: override_dh_install" ++
    ln "override_dh_install:" ++
    ln (tab ++ "dh_install") in
  let pkgname := map_package_name ext (sourceHeader spec) in
  let files := files_from_spec ext pkgname specpath in
  let rule :=
    match dict_get (pkgname ++ "-%exclude") files with
    | Some pats =>
        fold_left
          (fun rule pat =>
             let path := ln (tab ++ "rm -f debian/" ++ pkgname ++ "/" ++
                             expandMacro ext pat) in
             rule ++ normpath ext path)
          pats rule
    | None => rule
    end in
  rule ++ nl.

Definition rules_dh_install_from_spec (ext : Externals) (spec : Spec)
    (tree : Tree.t) (specpath : string) : Tree.t :=
  let rule := rules_dh_install_rule ext spec specpath in
  Tree.append "debian/rules" rule Tree.PermDefault tree.

Definition rules_clean_rule (spec : Spec) : string :=
  ln ".PHONY: override_dh_auto_clean" ++
  ln "override_dh_auto_clean:" ++
  ln (tab ++ "debian/clean.sh") ++
  re_sub_bol tab (strip (clean spec)) ++
  nl ++ nl.

Definition rules_clean_helper (spec : Spec) : string :=
  ln "#!/bin/sh" ++ replace BUILD_ROOT DESTDIR (clean spec).

Definition rules_clean_from_spec (spec : Spec) (tree : Tree.t) : Tree.t :=
  let rule := rules_clean_rule spec in
  let helper := rules_clean_helper spec in
  let tree := Tree.append "debian/rules" rule Tree.PermDefault tree in
  Tree.append "debian/clean.sh" helper (Tree.PermMode mode_755) tree.

Definition rules_test_rule : string :=
  ln ".PHONY: override_dh_auto_test" ++
  ln "override_dh_auto_test:".

Definition rules_test_from_spec (_ : Spec) (tree : Tree.t) : Tree.t :=
  let rule := rules_test_rule in
  Tree.append "debian/rules" rule Tree.PermDefault tree.

Definition python_setuptools_cfg_content : string :=
  ln "[install]" ++ ln "install-layout=deb".

Definition python_setuptools_cfg (_ : Spec) (tree : Tree.t) : Tree.t :=
  let content := python_setuptools_cfg_content in
  Tree.append "setup.cfg" content Tree.PermDefault tree.

Definition rules_from_spec (ext : Externals) (spec : Spec) (specpath : string)
  : Tree.t :=
  let res := Tree.empty in
  let res := ocaml_rules_preamble spec res in
  let res := rules_configure_from_spec spec res in
  let res := rules_build_from_spec spec res in
  let res := rules_install_from_spec spec res in
  let res := rules_dh_install_from_spec ext spec res specpath in
  let res := rules_clean_from_spec spec res in
  let res := rules_test_from_spec spec res in
  let res := python_setuptools_cfg spec res in
  res.

(* ------------------------------------------------------------------ *)
(** ** Sample inputs *)

Definition git_blob (url commit : string) : resource :=
  {| res_url := url; res_is_git := true; res_commitish := PStr commit;
     res_is_archive := false; res_prefix := PNone |}.

Definition plain_file (url : string) : resource :=
  {| res_url := url; res_is_git := false; res_commitish := PNone;
     res_is_archive := false; res_prefix := PNone |}.

Definition archive (url prefix : string) : resource :=
  {| res_url := url; res_is_git := false; res_commitish := PNone;
     res_is_archive := true; res_prefix := PStr prefix |}.

(** The spec's scenario: a git source and an individual patch. *)
Definition sample_spec : Spec :=
  {| resources_dict := [("Source0", git_blob "git://x" "abc");
                        ("Patch1", plain_file "p.patch")];
     build := "./configure --prefix=/usr" ++ nl ++ "make";
     install := "make install DESTDIR=$RPM_BUILD_ROOT" ++ nl ++
                "rm -f $RPM_BUILD_ROOT/usr/lib/*.la";
     clean := "rm -rf $RPM_BUILD_ROOT" ++ nl;
     sourceHeader := [("NAME", "foo")] |}.

(** A spec with a patch queue and its archive. *)
Definition pq_spec : Spec :=
  {| resources_dict := [("Source0", git_blob "git://x" "abc");
                        ("Archive0", archive "archive.tar.gz" "foo-1.0");
                        ("PatchQueue0", git_blob "git://pq" "def");
                        ("Patch1", plain_file "p.patch")];
     build := "";
     install := "make install";
     clean := "";
     sourceHeader := [("NAME", "foo")] |}.

(** Collaborators that map every package to [foo] with no exclusions. *)
Definition sample_ext : Externals :=
  {| map_package_name := fun _ => "foo";
     files_from_spec := fun _ _ => [];
     expandMacro := fun s => s;
     normpath := fun s => s |}.

Definition source_override_args : Args :=
  {| source := Some "ssh://h#deadbeef"; patchqueue := None |}.

Definition pq_override_args : Args :=
  {| source := None; patchqueue := Some "ssh://pq#v2" |}.

Definition no_override_args : Args :=
  {| source := None; patchqueue := None |}.

(** The pins computed for the sample inputs. *)
Definition pin_of (args : Args) (spec : Spec) : pindict :=
  match get_pin_content args spec with
  | Ok p => p
  | Err _ => []
  end.

(* ------------------------------------------------------------------ *)
(** ** Properties of pins *)

(** The entry written for an enumerated resource: its URL, the commit
    under the key [commititsh] exactly for the git classes, and never a
    [commitish] key. *)
Definition entry_shape (src : resource) (e : pindict) : Prop :=
  dict_get "URL" e = Some (PStr (res_url src)) /\
  dict_get "commitish" e = None /\
  dict_get "commititsh" e =
    (if res_is_git src then Some (res_commitish src) else None).

(** Whether the loop keeps a resource name. *)
Definition kept (args : Args) (name : string) : Prop :=
  (patchqueue args = None \/ contains "PatchQueue" name = false) /\
  (contains "Patch" name = false \/ contains "PatchQueue" name = true).

(** The keys whose entry comes from an override rather than from the
    declared resources. *)
Definition is_override_key (args : Args) (k : string) : Prop :=
  match source args with
  | Some _ => k = "Source0"
  | None =>
      match patchqueue args with
      | Some _ => k = "PatchQueue0" \/ k = "Archive0"
      | None => False
      end
  end.

(** The override argument that [get_pin_content] hands to [repo_or_path]:
    the source override if given, else the patch-queue override. *)
Definition active_override (args : Args) : option string :=
  match source args with
  | Some s => Some s
  | None => patchqueue args
  end.

(* ================================================================== *)
(** * Proofs *)

(** ** Sample runs *)

Example repo_or_path_ex1 :
  repo_or_path "ssh://h#deadbeef" = Ok ("ssh://h", Some "deadbeef").
Proof. reflexivity. Qed.
Example repo_or_path_ex2 : repo_or_path "a#b" = Ok ("a#b", None).
Proof. reflexivity. Qed.
Example repo_or_path_ex3 :
  exists m, repo_or_path "ssh://a#b#c" = Err (ValueError m).
Proof. eexists; reflexivity. Qed.
Example replace_ex :
  replace "$RPM_BUILD_ROOT" "${DESTDIR}" "a $RPM_BUILD_ROOT b $RPM_BUILD_ROOT"
  = "a ${DESTDIR} b ${DESTDIR}".
Proof. reflexivity. Qed.
Example strip_ex : strip ("  ab c" ++ nl ++ " ") = "ab c".
Proof. reflexivity. Qed.
Example sample_spec_pin :
  get_pin_content {| source := None; patchqueue := None |} sample_spec =
  Ok [("SchemaVersion", PStr "3");
      ("Source0", PDict [("URL", PStr "git://x"); ("commititsh", PStr "abc")])].
Proof. reflexivity. Qed.

Example empty_build_no_script :
  dict_get "debian/build.sh" (rules_from_spec sample_ext pq_spec "x.spec") = None.
Proof. reflexivity. Qed.

(** ** Dicts *)

Lemma dict_get_set {V} (k k' : string) (v : V) d :
  dict_get k' (dict_set k v d) =
  if String.eqb k' k then Some v else dict_get k' d.
Proof.
  induction d as [|[k0 v0] d IH]; simpl.
  - reflexivity.
  - destruct (String.eqb k k0) eqn:E.
    + apply String.eqb_eq in E; subst k0. simpl.
      destruct (String.eqb k' k); reflexivity.
    + simpl. rewrite IH.
      destruct (String.eqb k' k) eqn:E1; [|reflexivity].
      apply String.eqb_eq in E1; subst k'.
      rewrite E. reflexivity.
Qed.

Lemma dict_get_set_same {V} (k : string) (v : V) d :
  dict_get k (dict_set k v d) = Some v.
Proof. rewrite dict_get_set, String.eqb_refl. reflexivity. Qed.

Lemma dict_get_set_other {V} (k k' : string) (v : V) d :
  k' <> k -> dict_get k' (dict_set k v d) = dict_get k' d.
Proof.
  intros H. rewrite dict_get_set.
  destruct (String.eqb k' k) eqn:E; [apply String.eqb_eq in E; contradiction|].
  reflexivity.
Qed.

(** ** [repo_or_path] *)

Lemma split_length c s : List.length (Py.split c s) = S (count c s).
Proof.
  induction s as [|d s IH]; simpl; [reflexivity|].
  destruct (Ascii.eqb d c); simpl.
  - rewrite IH. reflexivity.
  - destruct (Py.split c s) as [|h t]; simpl in *; [discriminate|]. exact IH.
Qed.

(** A prefix free of the separator stays on the first piece of a split. *)
Lemma split_head_startswith c p s :
  count c p = 0 -> startswith p s = true ->
  exists h t, Py.split c s = h :: t /\ startswith p h = true.
Proof.
  revert s. induction p as [|a p IH]; intros s Hc Hp.
  - destruct (Py.split c s) as [|h t] eqn:E.
    + pose proof (split_length c s) as L. rewrite E in L. discriminate.
    + exists h, t. split; reflexivity.
  - destruct s as [|d s]; simpl in Hp; [discriminate|].
    apply andb_prop in Hp as [Had Hp].
    apply Ascii.eqb_eq in Had; subst d.
    simpl in Hc. destruct (Ascii.eqb a c) eqn:Eac; [discriminate|].
    simpl in Hc.
    destruct (IH s Hc Hp) as (h & t & Hs & Hh).
    exists (String a h), t. simpl. rewrite Eac, Hs. split; [reflexivity|].
    simpl. rewrite Ascii.eqb_refl. exact Hh.
Qed.

Lemma repo_or_path_err_iff arg :
  (exists m, repo_or_path arg = Err (ValueError m)) <->
  (startswith "ssh://" arg = true /\ 2 <= count "#" arg).
Proof.
  unfold repo_or_path.
  destruct (startswith "ssh://" arg) eqn:Hs.
  - pose proof (split_length "#" arg) as L.
    destruct (Py.split "#" arg) as [|x [|y [|z r]]]; simpl in L.
    + discriminate.
    + simpl. split; [intros [m Hm]; discriminate|]. lia.
    + simpl. split; [intros [m Hm]; discriminate|]. lia.
    + simpl. split; [intros _; split; [reflexivity|lia]|].
      intros _. eexists. reflexivity.
  - split; [intros [m Hm]; discriminate|]. intros [H _]; discriminate.
Qed.

Lemma repo_or_path_err_value_error arg e :
  repo_or_path arg = Err e -> exists m, e = ValueError m.
Proof.
  unfold repo_or_path.
  destruct (startswith "ssh://" arg); [|discriminate].
  destruct (Py.split "#" arg) as [|x [|y [|z r]]]; simpl; try discriminate;
    intros H; injection H as <-; eexists; reflexivity.
Qed.

Lemma repo_or_path_not_ssh arg :
  startswith "ssh://" arg = false -> repo_or_path arg = Ok (arg, None).
Proof. intros H. unfold repo_or_path. rewrite H. reflexivity. Qed.

Lemma repo_or_path_commit arg url c :
  repo_or_path arg = Ok (url, Some c) ->
  startswith "ssh://" arg = true /\ startswith "ssh://" url = true.
Proof.
  unfold repo_or_path.
  destruct (startswith "ssh://" arg) eqn:Hs; [|intros H; discriminate].
  destruct (split_head_startswith "#" "ssh://" arg eq_refl Hs)
    as (h & t & Hsp & Hh).
  rewrite Hsp.
  destruct t as [|y [|z r]]; simpl; intros H; try discriminate.
  injection H as <- <-. split; [reflexivity|exact Hh].
Qed.

Lemma override_entry_eq url commitish :
  override_entry url commitish =
  ("URL", PStr url) ::
    match commitish with Some c => [("commitish", PStr c)] | None => [] end.
Proof. destruct commitish; reflexivity. Qed.

Lemma split_nosep c s : count c s = 0 -> Py.split c s = [s].
Proof.
  induction s as [|d s IH]; simpl; intros H; [reflexivity|].
  destruct (Ascii.eqb d c); simpl in H; [discriminate|].
  rewrite (IH H). reflexivity.
Qed.

Lemma split_app_sep c u w :
  count c u = 0 -> Py.split c (u ++ String c w) = u :: Py.split c w.
Proof.
  induction u as [|d u IH]; simpl; intros H.
  - rewrite Ascii.eqb_refl. reflexivity.
  - destruct (Ascii.eqb d c); simpl in H; [discriminate|].
    rewrite (IH H). reflexivity.
Qed.

(** ** Claims on [get_pin_content] and [repo_or_path] *)

(** C1: with a source override, the pin holds exactly [SchemaVersion = "3"]
    and [Source0 = {URL: url[, commitish]}] where [(url, commitish)] is the
    parsed override; the declared resources play no part. *)
Theorem get_pin_content_source_override args spec src pin :
  source args = Some src ->
  get_pin_content args spec = Ok pin ->
  exists url commitish,
    repo_or_path src = Ok (url, commitish) /\
    pin = [("SchemaVersion", PStr "3");
           ("Source0",
            PDict (("URL", PStr url) ::
                   match commitish with
                   | Some c => [("commitish", PStr c)]
                   | None => []
                   end))] /\
    (forall spec', get_pin_content args spec' = Ok pin).
Proof.
  intros Hs H. unfold get_pin_content in *. rewrite Hs in *.
  destruct (repo_or_path src) as [[url c]|e]; [|discriminate].
  injection H as <-. exists url, c.
  split; [reflexivity|]. split.
  - simpl. rewrite override_entry_eq. reflexivity.
  - intros _. reflexivity.
Qed.

(** C2: with a patch-queue override, [PatchQueue0] and [Archive0] both hold
    the same entry [{URL: url[, commitish]}] built from the override. *)
Theorem get_pin_content_patchqueue_archive args spec pq pin :
  source args = None ->
  patchqueue args = Some pq ->
  get_pin_content args spec = Ok pin ->
  exists url commitish v,
    repo_or_path pq = Ok (url, commitish) /\
    v = PDict (("URL", PStr url) ::
               match commitish with
               | Some c => [("commitish", PStr c)]
               | None => []
               end) /\
    dict_get "PatchQueue0" pin = Some v /\
    dict_get "Archive0" pin = Some v.
Proof.
  intros Hs Hq H. unfold get_pin_content in H. rewrite Hs, Hq in H.
  destruct (repo_or_path pq) as [[url c]|e]; [|discriminate].
  rewrite dict_get_set_same in H. injection H as <-.
  exists url, c, (PDict (override_entry url c)).
  split; [reflexivity|]. split; [rewrite override_entry_eq; reflexivity|].
  split.
  - rewrite dict_get_set_other by discriminate. apply dict_get_set_same.
  - apply dict_get_set_same.
Qed.

(** C5: [repo_or_path] raises a [ValueError] exactly on an [ssh://]
    argument with two or more ['#']; every [ssh://URL#commitish] whose
    parts hold no ['#'] parses into [(ssh://URL, commitish)];
    [ssh://h#deadbeef] parses into
    [(ssh://h, deadbeef)] and, as a source override, gives the pin
    [{"SchemaVersion": "3", "Source0": {"URL": "ssh://h",
    "commitish": "deadbeef"}}]. *)
Theorem repo_or_path_value_error_and_ssh_example :
  (forall arg,
      (exists m, repo_or_path arg = Err (ValueError m)) <->
      (startswith "ssh://" arg = true /\ 2 <= count "#" arg)) /\
  (forall arg e, repo_or_path arg = Err e -> exists m, e = ValueError m) /\
  (forall u c, count "#" u = 0 -> count "#" c = 0 ->
     repo_or_path ("ssh://" ++ u ++ "#" ++ c) = Ok ("ssh://" ++ u, Some c)) /\
  repo_or_path "ssh://h#deadbeef" = Ok ("ssh://h", Some "deadbeef") /\
  (forall spec pq,
      get_pin_content {| source := Some "ssh://h#deadbeef"; patchqueue := pq |}
        spec =
      Ok [("SchemaVersion", PStr "3");
          ("Source0", PDict [("URL", PStr "ssh://h");
                             ("commitish", PStr "deadbeef")])]).
Proof.
  split; [exact repo_or_path_err_iff|].
  split; [exact repo_or_path_err_value_error|].
  split.
  { intros u c Hu Hc. unfold repo_or_path.
    change (startswith "ssh://" ("ssh://" ++ u ++ "#" ++ c)) with true.
    assert (Hsp : Py.split "#" ("ssh://" ++ u ++ "#" ++ c) = ["ssh://" ++ u; c]).
    { change ("ssh://" ++ u ++ "#" ++ c) with (("ssh://" ++ u) ++ String "#" c).
      rewrite split_app_sep, split_nosep by assumption. reflexivity. }
    cbv zeta. rewrite Hsp. reflexivity. }
  split; [reflexivity|].
  intros spec pq. reflexivity.
Qed.

(** C9: an argument without the [ssh://] prefix is returned unchanged with
    no commitish, whatever ['#'] it holds; a commitish only comes with an
    [ssh://] URL; a [ValueError] only comes from an [ssh://] argument with
    two or more ['#']. *)
Theorem repo_or_path_commit_only_ssh arg :
  (startswith "ssh://" arg = false -> repo_or_path arg = Ok (arg, None)) /\
  (forall url c,
      repo_or_path arg = Ok (url, Some c) -> startswith "ssh://" url = true) /\
  (forall e, repo_or_path arg = Err e ->
      (exists m, e = ValueError m) /\
      startswith "ssh://" arg = true /\ 2 <= count "#" arg).
Proof.
  split; [apply repo_or_path_not_ssh|].
  split.
  - intros url c H. apply (repo_or_path_commit arg url c H).
  - intros e H.
    destruct (repo_or_path_err_value_error arg e H) as [m ->].
    split; [eexists; reflexivity|].
    apply repo_or_path_err_iff. exists m. exact H.
Qed.

(** ** The resource loop *)

Lemma pin_step_cases args pin name src :
  (pin_step args pin (name, src) = pin /\ ~ kept args name) \/
  (kept args name /\
   exists e, pin_step args pin (name, src) = dict_set name (PDict e) pin /\
             entry_shape src e).
Proof.
  unfold pin_step, kept.
  destruct (patchqueue args) as [pq|];
  destruct (contains "PatchQueue" name) eqn:Hq;
  destruct (contains "Patch" name) eqn:Hp; simpl;
  first
    [ left; split; [reflexivity|];
      intros [[H1|H1] [H2|H2]]; discriminate
    | right; split; [split; auto|];
      eexists; split; [reflexivity|];
      unfold entry_shape;
      destruct (res_is_git src), (res_is_archive src); simpl;
      repeat split ].
Qed.

Lemma fold_pin_step_notin args res pin k :
  ~ In k (map fst res) ->
  dict_get k (fold_left (pin_step args) res pin) = dict_get k pin.
Proof.
  revert pin. induction res as [|[name src] res IH]; intros pin Hk;
    cbn [fold_left].
  - reflexivity.
  - simpl in Hk. rewrite IH by tauto.
    destruct (pin_step_cases args pin name src)
      as [[-> _]|[_ (e & -> & _)]]; [reflexivity|].
    apply dict_get_set_other. intros ->. tauto.
Qed.

(** Every value reachable in the result of the loop is either one of the
    initial dict or the entry of a kept resource of that name. *)
Lemma fold_pin_step_inv args (P : string -> pyval -> Prop) res pin :
  (forall k v, dict_get k pin = Some v -> P k v) ->
  (forall name src e, In (name, src) res -> kept args name ->
     entry_shape src e -> P name (PDict e)) ->
  forall k v, dict_get k (fold_left (pin_step args) res pin) = Some v -> P k v.
Proof.
  revert pin. induction res as [|[name src] res IH]; intros pin H0 Hres;
    cbn [fold_left].
  - exact H0.
  - apply IH; [|intros n s e Hin; apply Hres; right; exact Hin].
    destruct (pin_step_cases args pin name src)
      as [[-> _]|[Hk (e & -> & He)]]; [exact H0|].
    intros k v. rewrite dict_get_set.
    destruct (String.eqb k name) eqn:E.
    + apply String.eqb_eq in E; subst k. intros H; injection H as <-.
      apply (Hres name src e); [left; reflexivity|exact Hk|exact He].
    + apply H0.
Qed.

Lemma fold_pin_step_present args res pin name src :
  NoDup (map fst res) -> In (name, src) res -> kept args name ->
  exists e, dict_get name (fold_left (pin_step args) res pin) = Some (PDict e)
            /\ entry_shape src e.
Proof.
  revert pin. induction res as [|[n s] res IH]; intros pin Hnd Hin Hk;
    cbn [fold_left].
  - destruct Hin.
  - simpl in Hnd. inversion Hnd as [|? ? Hn Hnd']; subst.
    destruct Hin as [Heq|Hin].
    + injection Heq as -> ->.
      rewrite fold_pin_step_notin by exact Hn.
      destruct (pin_step_cases args pin name src)
        as [[_ Hnk]|[_ (e & -> & He)]]; [contradiction|].
      exists e. split; [apply dict_get_set_same|exact He].
    + apply IH; assumption.
Qed.

Lemma startswith_app_l p q s :
  startswith (p ++ q) s = true -> startswith p s = true.
Proof.
  revert s. induction p as [|a p IH]; intros s H; [reflexivity|].
  destruct s as [|d s]; simpl in *; [discriminate|].
  apply andb_prop in H as [H1 H2]. rewrite H1. simpl. apply IH, H2.
Qed.

Lemma contains_app_l p q s :
  contains (p ++ q) s = true -> contains p s = true.
Proof.
  induction s as [|d s IH]; simpl; intros H.
  - apply orb_true_iff in H as [H|H]; [|discriminate].
    rewrite (startswith_app_l p q _ H). reflexivity.
  - apply orb_true_iff in H as [H|H].
    + rewrite (startswith_app_l p q _ H). reflexivity.
    + rewrite (IH H). apply orb_true_r.
Qed.

Lemma contains_patchqueue_patch name :
  contains "PatchQueue" name = true -> contains "Patch" name = true.
Proof. apply (contains_app_l "Patch" "Queue"). Qed.

(** An individual patch name is never one of the keys the code writes
    itself. *)
Lemma individual_patch_not_fixed_key k :
  contains "Patch" k = true -> contains "PatchQueue" k = false ->
  k <> "SchemaVersion" /\ k <> "PatchQueue0" /\ k <> "Archive0".
Proof.
  intros Hp Hq. repeat split; intros ->; simpl in *; discriminate.
Qed.

Lemma fold_no_individual_patch args spec k :
  contains "Patch" k = true -> contains "PatchQueue" k = false ->
  dict_get k (fold_left (pin_step args) (resources_dict spec)
                [("SchemaVersion", PStr "3")]) = None.
Proof.
  intros Hp Hq.
  destruct (dict_get k _) as [v|] eqn:E; [exfalso|reflexivity].
  refine (fold_pin_step_inv args
            (fun k _ => ~ (contains "Patch" k = true /\
                           contains "PatchQueue" k = false))
            _ _ _ _ k v E (conj Hp Hq)).
  - intros k' v' H. simpl in H.
    destruct (String.eqb k' "SchemaVersion") eqn:Ek; [|discriminate].
    apply String.eqb_eq in Ek; subst k'. simpl. intros [X _]; discriminate X.
  - intros name src e _ Hk _ [K1 K2].
    destruct Hk as [_ [K|K]]; congruence.
Qed.

(** C3 (as amended): with no source override, no individual patch (a name
    holding ["Patch"] but not ["PatchQueue"]) is pinned; a ["PatchQueue"]
    resource is pinned with its URL when there is no patch-queue override;
    any resource whose name holds no ["Patch"] is pinned with its own URL,
    except a resource named [Archive0] under a patch-queue override:
    [Archive0] then holds the override's entry, the same value as
    [PatchQueue0]. *)
Theorem get_pin_content_patch_filter args spec pin :
  source args = None ->
  NoDup (map fst (resources_dict spec)) ->
  get_pin_content args spec = Ok pin ->
  (forall k, contains "Patch" k = true -> contains "PatchQueue" k = false ->
     dict_get k pin = None) /\
  (forall name src, In (name, src) (resources_dict spec) ->
     contains "PatchQueue" name = true -> patchqueue args = None ->
     exists e, dict_get name pin = Some (PDict e) /\
               dict_get "URL" e = Some (PStr (res_url src))) /\
  (forall name src, In (name, src) (resources_dict spec) ->
     contains "Patch" name = false ->
     (patchqueue args = None \/ name <> "Archive0") ->
     exists e, dict_get name pin = Some (PDict e) /\
               dict_get "URL" e = Some (PStr (res_url src))) /\
  (forall pq, patchqueue args = Some pq ->
     exists url commitish,
       repo_or_path pq = Ok (url, commitish) /\
       dict_get "Archive0" pin = dict_get "PatchQueue0" pin /\
       dict_get "Archive0" pin =
       Some (PDict (("URL", PStr url) ::
                    match commitish with
                    | Some c => [("commitish", PStr c)]
                    | None => []
                    end))).
Proof.
  intros Hs Hnd H. unfold get_pin_content in H. rewrite Hs in H.
  destruct (patchqueue args) as [pq|] eqn:Hq.
  - destruct (repo_or_path pq) as [[url c]|err] eqn:R; [|discriminate].
    rewrite dict_get_set_same in H. injection H as <-.
    split; [|split; [|split]].
    + intros k Hp Hpq.
      destruct (individual_patch_not_fixed_key k Hp Hpq) as (_ & H1 & H2).
      rewrite !dict_get_set_other by assumption.
      apply fold_no_individual_patch; assumption.
    + intros name src _ _ X; discriminate.
    + intros name src Hin Hp [X|Ha]; [discriminate|].
      assert (Hpq : contains "PatchQueue" name = false).
      { destruct (contains "PatchQueue" name) eqn:E; [|reflexivity].
        rewrite (contains_patchqueue_patch _ E) in Hp. discriminate. }
      assert (Hn : name <> "PatchQueue0") by (intros ->; discriminate).
      rewrite !dict_get_set_other by assumption.
      destruct (fold_pin_step_present args (resources_dict spec)
                  [("SchemaVersion", PStr "3")] name src Hnd Hin)
        as (e & He & HU & _).
      { split; [right; exact Hpq|left; exact Hp]. }
      exists e. split; assumption.
    + intros pq' Hpq'. injection Hpq' as <-. exists url, c.
      split; [exact R|].
      rewrite dict_get_set_same, dict_get_set_other, dict_get_set_same
        by discriminate.
      split; [reflexivity|]. rewrite override_entry_eq. reflexivity.
  - injection H as <-.
    split; [|split; [|split]].
    + intros k Hp Hpq. apply fold_no_individual_patch; assumption.
    + intros name src Hin Hpq _.
      destruct (fold_pin_step_present args (resources_dict spec)
                  [("SchemaVersion", PStr "3")] name src Hnd Hin)
        as (e & He & HU & _).
      { split; [left; exact Hq|right; exact Hpq]. }
      exists e. split; assumption.
    + intros name src Hin Hp _.
      destruct (fold_pin_step_present args (resources_dict spec)
                  [("SchemaVersion", PStr "3")] name src Hnd Hin)
        as (e & He & HU & _).
      { split; [left; exact Hq|left; exact Hp]. }
      exists e. split; assumption.
    + intros pq X. discriminate.
Qed.

(** C3 (as stated, refuted): under a patch-queue override, a declared
    [Archive0] resource, whose name holds no ["Patch"], is not pinned with
    its own URL but with the override's. *)
Lemma get_pin_content_archive0_replaced :
  exists pin,
    get_pin_content {| source := None; patchqueue := Some "pq.tar.gz" |}
      pq_spec = Ok pin /\
    In ("Archive0", archive "archive.tar.gz" "foo-1.0") (resources_dict pq_spec) /\
    contains "Patch" "Archive0" = false /\
    dict_get "Archive0" pin = Some (PDict [("URL", PStr "pq.tar.gz")]) /\
    ~ (exists e, dict_get "Archive0" pin = Some (PDict e) /\
                 dict_get "URL" e = Some (PStr "archive.tar.gz")).
Proof.
  eexists. split; [reflexivity|].
  split; [simpl; auto|]. split; [reflexivity|]. split; [reflexivity|].
  intros (e & He & HU). simpl in He. injection He as <-.
  simpl in HU. discriminate.
Qed.

Lemma override_entry_keys url commitish :
  dict_get "URL" (override_entry url commitish) = Some (PStr url) /\
  dict_get "commitish" (override_entry url commitish) =
    option_map PStr commitish /\
  dict_get "commititsh" (override_entry url commitish) = None.
Proof. destruct commitish; repeat split. Qed.

Lemma fold_pin_entries args spec k v :
  dict_get k (fold_left (pin_step args) (resources_dict spec)
                [("SchemaVersion", PStr "3")]) = Some v ->
  (k = "SchemaVersion" /\ v = PStr "3") \/
  exists src e, In (k, src) (resources_dict spec) /\ v = PDict e /\
                entry_shape src e.
Proof.
  intros Hk.
  refine (fold_pin_step_inv args
            (fun k v => (k = "SchemaVersion" /\ v = PStr "3") \/
                        exists src e, In (k, src) (resources_dict spec) /\
                                      v = PDict e /\ entry_shape src e)
            _ _ _ _ k v Hk).
  - intros k' v' H. simpl in H.
    destruct (String.eqb k' "SchemaVersion") eqn:E; [|discriminate].
    apply String.eqb_eq in E. injection H as <-. left. split; [exact E|reflexivity].
  - intros name src e Hin _ He. right. exists src, e. auto.
Qed.

(** C4: every entry of a pin that comes from an override ([Source0] under
    a source override, [PatchQueue0] and [Archive0] under a patch-queue
    override) carries its commit under [commitish] and has no [commititsh];
    every other entry is [SchemaVersion = "3"] or the entry of a declared
    resource, which carries its commit (exactly for the git classes) under
    [commititsh] and has no [commitish]. *)
Theorem get_pin_content_commitish_spelling args spec pin :
  get_pin_content args spec = Ok pin ->
  forall k v, dict_get k pin = Some v ->
  (is_override_key args k ->
     exists arg url commitish e,
       (source args = Some arg \/
        (source args = None /\ patchqueue args = Some arg)) /\
       repo_or_path arg = Ok (url, commitish) /\
       v = PDict e /\
       dict_get "URL" e = Some (PStr url) /\
       dict_get "commitish" e = option_map PStr commitish /\
       dict_get "commititsh" e = None) /\
  (~ is_override_key args k ->
     (k = "SchemaVersion" /\ v = PStr "3") \/
     exists src e,
       In (k, src) (resources_dict spec) /\ v = PDict e /\
       dict_get "URL" e = Some (PStr (res_url src)) /\
       dict_get "commitish" e = None /\
       dict_get "commititsh" e =
         (if res_is_git src then Some (res_commitish src) else None)).
Proof.
  intros H k v Hk. unfold get_pin_content in H. unfold is_override_key.
  destruct (source args) as [src|] eqn:Hs.
  - destruct (repo_or_path src) as [[url c]|err] eqn:Er; [|discriminate].
    injection H as <-. simpl in Hk.
    destruct (String.eqb k "SchemaVersion") eqn:E1.
    + apply String.eqb_eq in E1; subst k. injection Hk as <-.
      split; [intros X; discriminate X|]. intros _. left. auto.
    + destruct (String.eqb k "Source0") eqn:E2; [|discriminate].
      apply String.eqb_eq in E2; subst k. injection Hk as <-.
      split; [|intros Hne; contradiction Hne; reflexivity].
      intros _. exists src, url, c, (override_entry url c).
      destruct (override_entry_keys url c) as (K1 & K2 & K3). auto 10.
  - destruct (patchqueue args) as [pq|] eqn:Hq.
    + destruct (repo_or_path pq) as [[url c]|err] eqn:Er; [|discriminate].
      rewrite dict_get_set_same in H. injection H as <-.
      assert (Hov : exists arg url' commitish e,
                 (None = Some arg \/ (None = @None string /\ Some pq = Some arg)) /\
                 repo_or_path arg = Ok (url', commitish) /\
                 PDict (override_entry url c) = PDict e /\
                 dict_get "URL" e = Some (PStr url') /\
                 dict_get "commitish" e = option_map PStr commitish /\
                 dict_get "commititsh" e = None).
      { exists pq, url, c, (override_entry url c).
        destruct (override_entry_keys url c) as (K1 & K2 & K3). auto 10. }
      rewrite dict_get_set in Hk.
      destruct (String.eqb k "Archive0") eqn:Ea.
      * apply String.eqb_eq in Ea; subst k. injection Hk as <-.
        split; [intros _; exact Hov|].
        intros Hne; contradiction Hne; right; reflexivity.
      * rewrite dict_get_set in Hk.
        destruct (String.eqb k "PatchQueue0") eqn:Ep.
        -- apply String.eqb_eq in Ep; subst k. injection Hk as <-.
           split; [intros _; exact Hov|].
           intros Hne; contradiction Hne; left; reflexivity.
        -- split.
           ++ intros [-> | ->]; rewrite String.eqb_refl in *; discriminate.
           ++ intros _. apply (fold_pin_entries args spec k v Hk).
    + injection H as <-. split; [intros []|].
      intros _. apply (fold_pin_entries args spec k v Hk).
Qed.

(** ** Strings *)

Lemma str_app_assoc (a b c : string) : (a ++ b) ++ c = a ++ (b ++ c).
Proof. induction a as [|x a IH]; simpl; [reflexivity|]. rewrite IH. reflexivity. Qed.

Lemma str_app_nil_r (a : string) : a ++ "" = a.
Proof. induction a as [|x a IH]; simpl; [reflexivity|]. rewrite IH. reflexivity. Qed.

(** ** The output tree *)

Lemma get_append_same p c perm tr :
  dict_get p (Tree.append p c perm tr) = Some (Tree.contents p tr ++ c, perm).
Proof. apply dict_get_set_same. Qed.

Lemma get_append_other k p c perm tr :
  k <> p -> dict_get k (Tree.append p c perm tr) = dict_get k tr.
Proof. apply dict_get_set_other. Qed.

Lemma contents_append_same p c perm tr :
  Tree.contents p (Tree.append p c perm tr) = Tree.contents p tr ++ c.
Proof. unfold Tree.contents at 1. rewrite get_append_same. reflexivity. Qed.

Lemma contents_append_other k p c perm tr :
  k <> p -> Tree.contents k (Tree.append p c perm tr) = Tree.contents k tr.
Proof. intros H. unfold Tree.contents at 1. rewrite get_append_other by exact H. reflexivity. Qed.

Ltac tree_simpl :=
  repeat first
    [ rewrite get_append_same
    | rewrite get_append_other by discriminate
    | rewrite contents_append_same
    | rewrite contents_append_other by discriminate ].

Ltac unfold_rules :=
  unfold rules_from_spec, ocaml_rules_preamble, rules_configure_from_spec,
    rules_build_from_spec, rules_install_from_spec, rules_dh_install_from_spec,
    rules_clean_from_spec, rules_test_from_spec, python_setuptools_cfg;
  cbv beta zeta.

(** The primary rule file: the phase fragments in call order. *)
Lemma rules_file ext spec specpath :
  dict_get "debian/rules" (rules_from_spec ext spec specpath) =
  Some (ocaml_rules_preamble_rule ++ rules_configure_rule ++
        (if String.eqb (build spec) "" then "" else rules_build_rule) ++
        rules_install_rule ++ rules_dh_install_rule ext spec specpath ++
        rules_clean_rule spec ++ rules_test_rule,
        Tree.PermDefault).
Proof.
  unfold_rules. destruct (build spec) as [|c b]; simpl String.eqb; cbv iota;
    tree_simpl; unfold Tree.contents at 1; simpl dict_get; cbv iota;
    rewrite ?str_app_assoc; reflexivity.
Qed.

Lemma build_helper_file ext spec specpath :
  dict_get "debian/build.sh" (rules_from_spec ext spec specpath) =
  if String.eqb (build spec) "" then None
  else Some (rules_build_helper spec, Tree.PermMode mode_755).
Proof.
  unfold_rules. destruct (build spec) as [|c b] eqn:Hb; simpl String.eqb;
    cbv iota; tree_simpl; [reflexivity|].
  unfold Tree.contents. simpl dict_get. cbv iota. reflexivity.
Qed.

Lemma install_helper_file ext spec specpath :
  dict_get "debian/install.sh" (rules_from_spec ext spec specpath) =
  Some (rules_install_helper spec, Tree.PermMode mode_755).
Proof.
  unfold_rules. destruct (build spec) as [|c b]; cbv iota; tree_simpl;
    unfold Tree.contents; simpl dict_get; cbv iota; reflexivity.
Qed.

Lemma clean_helper_file ext spec specpath :
  dict_get "debian/clean.sh" (rules_from_spec ext spec specpath) =
  Some (rules_clean_helper spec, Tree.PermMode mode_755).
Proof.
  unfold_rules. destruct (build spec) as [|c b]; cbv iota; tree_simpl;
    unfold Tree.contents; simpl dict_get; cbv iota; reflexivity.
Qed.

Lemma setup_cfg_file ext spec specpath :
  dict_get "setup.cfg" (rules_from_spec ext spec specpath) =
  Some (python_setuptools_cfg_content, Tree.PermDefault).
Proof.
  unfold_rules. destruct (build spec) as [|c b]; cbv iota; tree_simpl;
    unfold Tree.contents; simpl dict_get; cbv iota; reflexivity.
Qed.

(** C6: the build stanza and [debian/build.sh] are emitted exactly when the
    build recipe is non-empty; the preamble, configure, install, dh_install,
    clean and test stanzas, [debian/install.sh], [debian/clean.sh] and
    [setup.cfg] are emitted for every spec. *)
Theorem rules_from_spec_build_optional ext spec specpath :
  (dict_get "debian/build.sh" (rules_from_spec ext spec specpath) <> None <->
   build spec <> "") /\
  (build spec <> "" ->
   dict_get "debian/build.sh" (rules_from_spec ext spec specpath) =
   Some (rules_build_helper spec, Tree.PermMode mode_755)) /\
  dict_get "debian/rules" (rules_from_spec ext spec specpath) =
  Some (ocaml_rules_preamble_rule ++ rules_configure_rule ++
        (if String.eqb (build spec) "" then "" else rules_build_rule) ++
        rules_install_rule ++ rules_dh_install_rule ext spec specpath ++
        rules_clean_rule spec ++ rules_test_rule,
        Tree.PermDefault) /\
  dict_get "debian/install.sh" (rules_from_spec ext spec specpath) =
  Some (rules_install_helper spec, Tree.PermMode mode_755) /\
  dict_get "debian/clean.sh" (rules_from_spec ext spec specpath) =
  Some (rules_clean_helper spec, Tree.PermMode mode_755) /\
  dict_get "setup.cfg" (rules_from_spec ext spec specpath) =
  Some (python_setuptools_cfg_content, Tree.PermDefault).
Proof.
  rewrite build_helper_file, rules_file, install_helper_file,
    clean_helper_file, setup_cfg_file.
  split; [|split; [|repeat split]].
  - destruct (String.eqb (build spec) "") eqn:E.
    + apply String.eqb_eq in E. split; [intros H; contradiction H; reflexivity|].
      intros H; contradiction.
    + apply String.eqb_neq in E. split; [intros _; exact E|discriminate].
  - intros H. apply String.eqb_neq in H. rewrite H. reflexivity.
Qed.

(** C8: [debian/rules] is the concatenation, in call order, of the
    preamble, configure, build (when the recipe is non-empty), install,
    dh_install, clean and test fragments, and an append to a path adds its
    content after what the path already holds, with nothing in between. *)
Theorem rules_file_fragment_order ext spec specpath :
  Tree.contents "debian/rules" (rules_from_spec ext spec specpath) =
  ocaml_rules_preamble_rule ++ rules_configure_rule ++
  (if String.eqb (build spec) "" then "" else rules_build_rule) ++
  rules_install_rule ++ rules_dh_install_rule ext spec specpath ++
  rules_clean_rule spec ++ rules_test_rule /\
  (forall path c perm tr,
     Tree.contents path (Tree.append path c perm tr) =
     Tree.contents path tr ++ c).
Proof.
  split.
  - unfold Tree.contents. rewrite rules_file. reflexivity.
  - apply contents_append_same.
Qed.

(** ** [str.replace] of the build-root placeholder *)

Lemma startswith_app_self p x : startswith p (p ++ x) = true.
Proof. induction p as [|a p IH]; simpl; [reflexivity|]. rewrite Ascii.eqb_refl. exact IH. Qed.

Lemma startswith_app_split p x r :
  startswith p (x ++ r) = true ->
  startswith p x = true \/ exists p2, p = x ++ p2 /\ startswith p2 r = true.
Proof.
  revert p. induction x as [|c x IH]; intros p H.
  - right. exists p. split; [reflexivity|exact H].
  - destruct p as [|d p]; [left; reflexivity|].
    simpl in H. apply andb_prop in H as [Hdc H].
    apply Ascii.eqb_eq in Hdc; subst d.
    destruct (IH p H) as [H'|(p2 & -> & H')].
    + left. simpl. rewrite Ascii.eqb_refl. exact H'.
    + right. exists p2. split; [reflexivity|exact H'].
Qed.

Lemma replace_from_skip old new p x :
  replace_from old new (String.length p) (p ++ x) = replace_from old new 0 x.
Proof. induction p as [|c p IH]; simpl; [reflexivity|exact IH]. Qed.

Lemma replace_from_match old new x :
  old <> "" ->
  replace_from old new 0 (old ++ x) = new ++ replace_from old new 0 x.
Proof.
  intros Hne. destruct old as [|c o]; [contradiction Hne; reflexivity|].
  simpl. rewrite Ascii.eqb_refl, startswith_app_self. simpl.
  rewrite replace_from_skip. reflexivity.
Qed.

Lemma count_app c a b : count c (a ++ b) = count c a + count c b.
Proof. induction a as [|d a IH]; simpl; [reflexivity|]. rewrite IH. lia. Qed.

(** A non-empty proper suffix of the placeholder never starts with ['$']. *)
Lemma build_root_suffix_head x p2 :
  x <> "" -> BUILD_ROOT = x ++ p2 -> startswith "$" p2 = false.
Proof.
  intros Hx H.
  destruct x as [|c x]; [contradiction Hx; reflexivity|].
  unfold BUILD_ROOT in H. injection H as Hc Ht.
  assert (Hcnt : count "$" (x ++ p2) = 0) by (rewrite <- Ht; reflexivity).
  rewrite count_app in Hcnt.
  destruct p2 as [|d p2]; [reflexivity|].
  simpl in Hcnt.
  assert (Hd : d <> "$"%char).
  { intros ->. simpl in Hcnt. lia. }
  change (startswith "$" (String d p2)) with (Ascii.eqb "$" d && true).
  destruct (Ascii.eqb "$" d) eqn:E; [|reflexivity].
  apply Ascii.eqb_eq in E. subst d. contradiction Hd. reflexivity.
Qed.

Lemma contains_cons p c s :
  contains p (String c s) = startswith p (String c s) || contains p s.
Proof. reflexivity. Qed.

Lemma replace_from_cons0 old new c s :
  replace_from old new 0 (String c s) =
  if startswith old (String c s)
  then new ++ replace_from old new (pred (String.length old)) s
  else String c (replace_from old new 0 s).
Proof. reflexivity. Qed.

(** No occurrence of the placeholder starts inside a placeholder-free text
    and ends in what follows it, when that is empty or starts with ['$']. *)
Lemma build_root_no_straddle x rest :
  x <> "" -> startswith BUILD_ROOT x = false ->
  (rest = "" \/ startswith "$" rest = true) ->
  startswith BUILD_ROOT (x ++ rest) = false.
Proof.
  intros Hx Hs Hr.
  destruct (startswith BUILD_ROOT (x ++ rest)) eqn:E; [exfalso|reflexivity].
  apply startswith_app_split in E as [E|(p2 & Hp & E)]; [congruence|].
  pose proof (build_root_suffix_head x p2 Hx Hp) as Hh.
  destruct p2 as [|d p2].
  - rewrite str_app_nil_r in Hp. rewrite <- Hp in Hs. discriminate.
  - destruct Hr as [->|Hr]; [discriminate|].
    destruct rest as [|e rest]; [discriminate|].
    cbn [startswith] in E, Hr. apply andb_prop in E as [E _].
    rewrite andb_true_r in Hr.
    apply Ascii.eqb_eq in E. apply Ascii.eqb_eq in Hr. subst.
    discriminate.
Qed.

Lemma replace_free_prefix a rest :
  contains BUILD_ROOT a = false ->
  (rest = "" \/ startswith "$" rest = true) ->
  replace_from BUILD_ROOT DESTDIR 0 (a ++ rest) =
  a ++ replace_from BUILD_ROOT DESTDIR 0 rest.
Proof.
  induction a as [|c a IH]; intros Ha Hr; [reflexivity|].
  rewrite contains_cons in Ha. apply orb_false_iff in Ha as [Hs Ha].
  change (String c a ++ rest) with (String c (a ++ rest)).
  rewrite replace_from_cons0.
  change (String c (a ++ rest)) with (String c a ++ rest).
  rewrite (build_root_no_straddle (String c a) rest ltac:(discriminate) Hs Hr).
  change (String c a ++ replace_from BUILD_ROOT DESTDIR 0 rest)
    with (String c (a ++ replace_from BUILD_ROOT DESTDIR 0 rest)).
  f_equal. apply IH; assumption.
Qed.

(** [recipe.replace("$RPM_BUILD_ROOT", "${DESTDIR}")] on a recipe cut at
    every occurrence of the placeholder into placeholder-free pieces puts
    ["${DESTDIR}"] between the same pieces. *)
Lemma replace_build_root_concat segs :
  Forall (fun s => contains BUILD_ROOT s = false) segs ->
  replace BUILD_ROOT DESTDIR (String.concat BUILD_ROOT segs) =
  String.concat DESTDIR segs.
Proof.
  unfold replace. cbv beta iota delta [BUILD_ROOT]. fold BUILD_ROOT.
  induction segs as [|s segs IH]; intros Hf; [reflexivity|].
  inversion Hf as [|? ? Hs Hf']; subst.
  destruct segs as [|s2 segs].
  - simpl. rewrite <- (str_app_nil_r s) at 1.
    rewrite replace_free_prefix by (auto || (left; reflexivity)).
    rewrite str_app_nil_r. reflexivity.
  - change (String.concat BUILD_ROOT (s :: s2 :: segs))
      with (s ++ BUILD_ROOT ++ String.concat BUILD_ROOT (s2 :: segs)).
    change (String.concat DESTDIR (s :: s2 :: segs))
      with (s ++ DESTDIR ++ String.concat DESTDIR (s2 :: segs)).
    rewrite replace_free_prefix by (auto || (right; reflexivity)).
    rewrite replace_from_match by discriminate.
    rewrite IH by exact Hf'. reflexivity.
Qed.

(** C7: each helper script ([debian/build.sh], [debian/install.sh],
    [debian/clean.sh]) is its fixed header followed by the recipe with every
    occurrence of [$RPM_BUILD_ROOT] replaced by [${DESTDIR}] and nothing
    else changed: a recipe cut at each occurrence into placeholder-free
    pieces gives the same pieces joined by [${DESTDIR}]. *)
Theorem helper_scripts_replace_build_root ext spec specpath bsegs isegs csegs :
  Forall (fun s => contains BUILD_ROOT s = false) bsegs ->
  Forall (fun s => contains BUILD_ROOT s = false) isegs ->
  Forall (fun s => contains BUILD_ROOT s = false) csegs ->
  build spec = String.concat BUILD_ROOT bsegs ->
  install spec = String.concat BUILD_ROOT isegs ->
  clean spec = String.concat BUILD_ROOT csegs ->
  (build spec <> "" ->
   dict_get "debian/build.sh" (rules_from_spec ext spec specpath) =
   Some (ln "#!/bin/sh" ++ ln "unset CFLAGS" ++ String.concat DESTDIR bsegs,
         Tree.PermMode mode_755)) /\
  dict_get "debian/install.sh" (rules_from_spec ext spec specpath) =
  Some (ln "#!/bin/sh" ++ String.concat DESTDIR isegs, Tree.PermMode mode_755) /\
  dict_get "debian/clean.sh" (rules_from_spec ext spec specpath) =
  Some (ln "#!/bin/sh" ++ String.concat DESTDIR csegs, Tree.PermMode mode_755).
Proof.
  intros Hb Hi Hc Eb Ei Ec.
  rewrite build_helper_file, install_helper_file, clean_helper_file.
  unfold rules_build_helper, rules_install_helper, rules_clean_helper.
  rewrite Eb, Ei, Ec, !replace_build_root_concat by assumption.
  split; [|split; reflexivity].
  intros Hne.
  destruct (String.eqb (String.concat BUILD_ROOT bsegs) "") eqn:E;
    [|reflexivity].
  apply String.eqb_eq in E. contradiction.
Qed.

(** ** The clean recipe inlined in [debian/rules] *)

Lemma startswith_iff p s : startswith p s = true <-> exists b, s = p ++ b.
Proof.
  revert s. induction p as [|c p IH]; intros s.
  - split; [intros _; exists s; reflexivity|reflexivity].
  - destruct s as [|d s].
    + split; [discriminate|intros [b Hb]; discriminate].
    + cbn [startswith]. rewrite andb_true_iff, Ascii.eqb_eq, IH.
      split.
      * intros [-> [b ->]]. exists b. reflexivity.
      * intros [b Hb]. injection Hb as -> ->. split; [reflexivity|].
        exists b. reflexivity.
Qed.

Lemma contains_iff p s : contains p s = true <-> exists a b, s = a ++ p ++ b.
Proof.
  induction s as [|c s IH].
  - cbn [contains]. rewrite orb_false_r, startswith_iff. split.
    + intros [b Hb]. exists "", b. exact Hb.
    + intros [a [b Hab]]. destruct a as [|x a]; [exists b; exact Hab|].
      discriminate.
  - rewrite contains_cons, orb_true_iff, startswith_iff, IH. split.
    + intros [[b Hb]|[a [b Hab]]].
      * exists "", b. exact Hb.
      * exists (String c a), b. rewrite Hab. reflexivity.
    + intros [a [b Hab]]. destruct a as [|x a].
      * left. exists b. exact Hab.
      * right. injection Hab as -> Hs. exists a, b. exact Hs.
Qed.

Lemma lstrip_app_nonspace a c x :
  isspace c = false -> exists a', lstrip (a ++ String c x) = a' ++ String c x.
Proof.
  intros Hc. induction a as [|d a IH].
  - exists "". simpl. rewrite Hc. reflexivity.
  - cbn [append lstrip]. destruct (isspace d).
    + exact IH.
    + exists (String d a). reflexivity.
Qed.

Lemma rstrip_app y z :
  rstrip (y ++ z) =
  match rstrip z with
  | EmptyString => rstrip y
  | r => y ++ r
  end.
Proof.
  induction y as [|c y IH].
  - simpl. destruct (rstrip z); reflexivity.
  - cbn [append rstrip]. rewrite IH.
    destruct (rstrip z) as [|d r].
    + reflexivity.
    + destruct y; reflexivity.
Qed.

Lemma strip_keeps_build_root s :
  contains BUILD_ROOT s = true -> contains BUILD_ROOT (strip s) = true.
Proof.
  rewrite !contains_iff. intros (a & b & ->).
  unfold strip.
  destruct (lstrip_app_nonspace a "$" ("RPM_BUILD_ROOT" ++ b) eq_refl)
    as [a' Ha'].
  change (BUILD_ROOT ++ b) with (String "$" ("RPM_BUILD_ROOT" ++ b)).
  rewrite Ha', rstrip_app.
  change (String "$" ("RPM_BUILD_ROOT" ++ b)) with (BUILD_ROOT ++ b).
  rewrite rstrip_app.
  destruct (rstrip b) as [|d r].
  - exists a', "". reflexivity.
  - exists a', (String d r). reflexivity.
Qed.

Lemma sub_bol_tail_app ins a b :
  sub_bol_tail ins (a ++ b) = sub_bol_tail ins a ++ sub_bol_tail ins b.
Proof.
  induction a as [|c a IH]; [reflexivity|].
  cbn [append sub_bol_tail]. rewrite IH.
  destruct (Ascii.eqb c "010"%char); [rewrite <- str_app_assoc|]; reflexivity.
Qed.

Lemma re_sub_bol_keeps_build_root s :
  contains BUILD_ROOT s = true ->
  contains BUILD_ROOT (re_sub_bol tab s) = true.
Proof.
  rewrite !contains_iff. intros (a & b & ->).
  unfold re_sub_bol. rewrite !sub_bol_tail_app.
  exists (tab ++ sub_bol_tail tab a), (sub_bol_tail tab b).
  rewrite str_app_assoc. reflexivity.
Qed.

(** After the replacement the placeholder is gone. *)
Lemma startswith_replace_build_root w s :
  count "$" w = 0 ->
  startswith w (replace_from BUILD_ROOT DESTDIR 0 s) = startswith w s.
Proof.
  revert w. induction s as [|c s IH]; intros w Hw; [reflexivity|].
  rewrite replace_from_cons0.
  destruct (startswith BUILD_ROOT (String c s)) eqn:E.
  - destruct w as [|d w]; [reflexivity|].
    assert (Hd : d <> "$"%char).
    { intros ->. simpl in Hw. discriminate. }
    assert (Hc : c = "$"%char).
    { cbn [startswith BUILD_ROOT] in E. apply andb_prop in E as [E _].
      apply Ascii.eqb_eq in E. symmetry. exact E. }
    subst c. change (DESTDIR ++ ?X) with (String "$" ("{DESTDIR}" ++ X)).
    cbn [startswith].
    destruct (Ascii.eqb d "$") eqn:Ed; [|reflexivity].
    apply Ascii.eqb_eq in Ed. contradiction.
  - destruct w as [|d w]; [reflexivity|].
    cbn [startswith]. simpl in Hw.
    destruct (Ascii.eqb d "$"); [discriminate|].
    rewrite IH by exact Hw. reflexivity.
Qed.

Lemma contains_destdir_app y :
  contains BUILD_ROOT (DESTDIR ++ y) = contains BUILD_ROOT y.
Proof. reflexivity. Qed.

Lemma contains_shebang_app y :
  contains BUILD_ROOT (ln "#!/bin/sh" ++ y) = contains BUILD_ROOT y.
Proof. reflexivity. Qed.

Lemma replace_build_root_gone s :
  contains BUILD_ROOT (replace BUILD_ROOT DESTDIR s) = false.
Proof.
  change (replace BUILD_ROOT DESTDIR s) with (replace_from BUILD_ROOT DESTDIR 0 s).
  assert (H : forall k, contains BUILD_ROOT (replace_from BUILD_ROOT DESTDIR k s) = false).
  2: apply H.
  induction s as [|c s IH]; intros k; [reflexivity|].
  destruct k as [|k]; [|apply IH].
  rewrite replace_from_cons0.
  destruct (startswith BUILD_ROOT (String c s)) eqn:E.
  - rewrite contains_destdir_app. apply IH.
  - rewrite contains_cons, IH, orb_false_r.
    change (startswith BUILD_ROOT (String c (replace_from BUILD_ROOT DESTDIR 0 s)))
      with (Ascii.eqb "$" c &&
            startswith "RPM_BUILD_ROOT" (replace_from BUILD_ROOT DESTDIR 0 s)).
    rewrite startswith_replace_build_root by reflexivity.
    exact E.
Qed.

(** C10: [debian/rules] inlines the clean recipe stripped and indented,
    placeholder untouched, while [debian/clean.sh] gets the recipe with the
    placeholder replaced; so a recipe that mentions [$RPM_BUILD_ROOT] keeps
    it in the inlined copy and loses it in the helper script. *)
Theorem clean_inline_keeps_build_root ext spec specpath :
  (exists pre,
     dict_get "debian/rules" (rules_from_spec ext spec specpath) =
     Some (pre ++ ln ".PHONY: override_dh_auto_clean" ++
           ln "override_dh_auto_clean:" ++ ln (tab ++ "debian/clean.sh") ++
           re_sub_bol tab (strip (clean spec)) ++ nl ++ nl ++ rules_test_rule,
           Tree.PermDefault)) /\
  dict_get "debian/clean.sh" (rules_from_spec ext spec specpath) =
  Some (ln "#!/bin/sh" ++ replace BUILD_ROOT DESTDIR (clean spec),
        Tree.PermMode mode_755) /\
  (contains BUILD_ROOT (clean spec) = true ->
   contains BUILD_ROOT (re_sub_bol tab (strip (clean spec))) = true /\
   contains BUILD_ROOT (ln "#!/bin/sh" ++ replace BUILD_ROOT DESTDIR (clean spec))
   = false).
Proof.
  split; [|split].
  - rewrite rules_file.
    exists (ocaml_rules_preamble_rule ++ rules_configure_rule ++
            (if String.eqb (build spec) "" then "" else rules_build_rule) ++
            rules_install_rule ++ rules_dh_install_rule ext spec specpath).
    unfold rules_clean_rule. rewrite !str_app_assoc. reflexivity.
  - apply clean_helper_file.
  - intros H. split.
    + apply re_sub_bol_keeps_build_root, strip_keeps_build_root, H.
    + rewrite contains_shebang_app. apply replace_build_root_gone.
Qed.

(** ** Witnesses *)

Lemma get_pin_content_source_override_witness :
  exists url commitish,
    repo_or_path "ssh://h#deadbeef" = Ok (url, commitish) /\
    pin_of source_override_args sample_spec =
    [("SchemaVersion", PStr "3");
     ("Source0",
      PDict (("URL", PStr url) ::
             match commitish with
             | Some c => [("commitish", PStr c)]
             | None => []
             end))] /\
    (forall spec', get_pin_content source_override_args spec' =
                   Ok (pin_of source_override_args sample_spec)).
Proof.
  apply (get_pin_content_source_override source_override_args sample_spec
           "ssh://h#deadbeef"); reflexivity.
Defined.

Lemma get_pin_content_patchqueue_archive_witness :
  exists url commitish v,
    repo_or_path "ssh://pq#v2" = Ok (url, commitish) /\
    v = PDict (("URL", PStr url) ::
               match commitish with
               | Some c => [("commitish", PStr c)]
               | None => []
               end) /\
    dict_get "PatchQueue0" (pin_of pq_override_args pq_spec) = Some v /\
    dict_get "Archive0" (pin_of pq_override_args pq_spec) = Some v.
Proof.
  apply (get_pin_content_patchqueue_archive pq_override_args pq_spec
           "ssh://pq#v2"); reflexivity.
Defined.

Lemma get_pin_content_patch_filter_witness :
  dict_get "Patch1" (pin_of no_override_args pq_spec) = None /\
  (exists e, dict_get "PatchQueue0" (pin_of no_override_args pq_spec) =
             Some (PDict e) /\ dict_get "URL" e = Some (PStr "git://pq")) /\
  (exists e, dict_get "Source0" (pin_of pq_override_args pq_spec) =
             Some (PDict e) /\ dict_get "URL" e = Some (PStr "git://x")) /\
  dict_get "Archive0" (pin_of pq_override_args pq_spec) =
  Some (PDict [("URL", PStr "ssh://pq"); ("commitish", PStr "v2")]).
Proof.
  assert (Hnd : NoDup (map fst (resources_dict pq_spec))).
  { simpl. repeat constructor; simpl; intros H;
      repeat (destruct H as [H|H]; [discriminate H|]); exact H. }
  destruct (get_pin_content_patch_filter no_override_args pq_spec
              (pin_of no_override_args pq_spec) eq_refl Hnd eq_refl)
    as (H1 & H2 & _).
  destruct (get_pin_content_patch_filter pq_override_args pq_spec
              (pin_of pq_override_args pq_spec) eq_refl Hnd eq_refl)
    as (_ & _ & H3 & H4).
  split; [apply H1; reflexivity|]. split; [|split].
  - apply (H2 "PatchQueue0" (git_blob "git://pq" "def")); [simpl; auto 10|reflexivity|reflexivity].
  - apply (H3 "Source0" (git_blob "git://x" "abc")); [simpl; auto 10|reflexivity|].
    right. discriminate.
  - destruct (H4 "ssh://pq#v2" eq_refl) as (url & c & Hr & Heq & Ha).
    rewrite Ha. injection Hr as <- <-. reflexivity.
Defined.

Lemma get_pin_content_commitish_spelling_witness :
  (exists e,
     dict_get "Source0" (pin_of source_override_args sample_spec) =
     Some (PDict e) /\
     dict_get "commitish" e = Some (PStr "deadbeef") /\
     dict_get "commititsh" e = None) /\
  (exists e,
     dict_get "Source0" (pin_of no_override_args sample_spec) =
     Some (PDict e) /\
     dict_get "commititsh" e = Some (PStr "abc") /\
     dict_get "commitish" e = None).
Proof.
  split.
  - destruct (proj1 (get_pin_content_commitish_spelling
                       source_override_args sample_spec
                       (pin_of source_override_args sample_spec) eq_refl
                       "Source0"
                       (PDict [("URL", PStr "ssh://h");
                               ("commitish", PStr "deadbeef")]) eq_refl)
                    eq_refl)
      as (arg & url & c & e & Hsrc & Hr & Hv & _ & Hc & Hct).
    destruct Hsrc as [Hs|[Hs _]]; [|discriminate Hs].
    injection Hs as <-. vm_compute in Hr. injection Hr as <- <-.
    exists e. split; [rewrite <- Hv; reflexivity|]. split; assumption.
  - destruct (proj2 (get_pin_content_commitish_spelling
                       no_override_args sample_spec
                       (pin_of no_override_args sample_spec) eq_refl
                       "Source0"
                       (PDict [("URL", PStr "git://x");
                               ("commititsh", PStr "abc")]) eq_refl)
                    (fun f => f))
      as [[Hk _]|(src & e & Hin & Hv & _ & Hc & Hct)]; [discriminate Hk|].
    simpl in Hin. destruct Hin as [Hin|[Hin|[]]]; [|discriminate Hin].
    injection Hin as Hsrc. subst src. exists e. split; [rewrite <- Hv; reflexivity|].
    split; assumption.
Defined.

Lemma helper_scripts_replace_build_root_witness :
  dict_get "debian/install.sh"
    (rules_from_spec sample_ext sample_spec "SPECS/foo.spec") =
  Some (ln "#!/bin/sh" ++ "make install DESTDIR=${DESTDIR}" ++ nl ++
        "rm -f ${DESTDIR}/usr/lib/*.la", Tree.PermMode mode_755) /\
  dict_get "debian/clean.sh"
    (rules_from_spec sample_ext sample_spec "SPECS/foo.spec") =
  Some (ln "#!/bin/sh" ++ "rm -rf ${DESTDIR}" ++ nl, Tree.PermMode mode_755).
Proof.
  destruct (helper_scripts_replace_build_root sample_ext sample_spec
              "SPECS/foo.spec"
              [build sample_spec]
              ["make install DESTDIR="; nl ++ "rm -f "; "/usr/lib/*.la"]
              ["rm -rf "; nl]
              ltac:(repeat constructor) ltac:(repeat constructor)
              ltac:(repeat constructor) eq_refl eq_refl eq_refl)
    as (_ & Hi & Hc).
  split; [rewrite Hi | rewrite Hc]; reflexivity.
Defined.

(* ================================================================== *)
(** * Further properties of the code *)

(** ** Splitting on a separator *)

(** Joining the pieces of a split with the separator gives the string
    back, and no piece holds the separator. *)
Lemma split_concat c s :
  String.concat (String c "") (Py.split c s) = s /\
  Forall (fun x => count c x = 0) (Py.split c s).
Proof.
  induction s as [|d s [IHc IHf]]; simpl.
  - split; [reflexivity|repeat constructor].
  - pose proof (split_length c s) as L.
    destruct (Ascii.eqb d c) eqn:E.
    + apply Ascii.eqb_eq in E; subst d.
      destruct (Py.split c s) as [|h t]; [discriminate|].
      split; [|constructor; [reflexivity|exact IHf]].
      destruct t; simpl in IHc |- *; rewrite IHc; reflexivity.
    + destruct (Py.split c s) as [|h t]; [discriminate|].
      apply Forall_cons_iff in IHf as [Hh Ht].
      split.
      * destruct t; simpl in *; rewrite IHc; reflexivity.
      * constructor; [simpl; rewrite E; exact Hh|exact Ht].
Qed.

Lemma startswith_app_r p u x :
  startswith p u = true -> startswith p (u ++ x) = true.
Proof.
  rewrite !startswith_iff. intros (b & ->).
  exists (b ++ x). apply str_app_assoc.
Qed.

Lemma count_sep_app u c :
  count "#" (u ++ String "#" c) = count "#" u + S (count "#" c).
Proof. rewrite count_app. reflexivity. Qed.

Lemma repo_or_path_err_any arg :
  (exists e, repo_or_path arg = Err e) <->
  (startswith "ssh://" arg = true /\ 2 <= count "#" arg).
Proof.
  rewrite <- repo_or_path_err_iff. split.
  - intros (e & He). destruct (repo_or_path_err_value_error arg e He) as (m & ->).
    exists m. exact He.
  - intros (m & Hm). exists (ValueError m). exact Hm.
Qed.

(** X1: [repo_or_path] returns a commit exactly for an argument of the form
    [url#commit] where [url] starts with [ssh://] and neither part holds a
    ['#']; it returns the argument itself with no commit exactly when the
    argument does not start with [ssh://] or holds no ['#']. *)
Theorem repo_or_path_ok_iff arg url c :
  (repo_or_path arg = Ok (url, Some c) <->
   arg = url ++ "#" ++ c /\ startswith "ssh://" url = true /\
   count "#" url = 0 /\ count "#" c = 0) /\
  (repo_or_path arg = Ok (url, None) <->
   url = arg /\ (startswith "ssh://" arg = false \/ count "#" arg = 0)).
Proof.
  unfold repo_or_path.
  destruct (startswith "ssh://" arg) eqn:Hs.
  - destruct (split_head_startswith "#" "ssh://" arg eq_refl Hs)
      as (h0 & t0 & Hsp0 & Hh0).
    destruct (split_concat "#" arg) as [Hc Hf].
    pose proof (split_length "#" arg) as L.
    destruct (Py.split "#" arg) as [|x [|y [|z r]]] eqn:Esp;
      simpl in L; [discriminate| | |].
    + simpl in Hc. simpl. split.
      * split; [intros H; discriminate|].
        intros (-> & _ & Hu & Hc'). rewrite count_sep_app in L. lia.
      * split; [intros H; injection H as ->; split; [reflexivity|right; lia]|].
        intros (-> & _). reflexivity.
    + simpl in Hc. simpl. injection Hsp0 as <- _.
      inversion Hf as [|? ? Hx Hf']; inversion Hf' as [|? ? Hy _]; subst.
      split.
      * split.
        -- intros H; injection H as <- <-. auto.
        -- intros (Ha & _ & Hu & Hc').
           rewrite Ha, split_app_sep, split_nosep in Esp by assumption.
           injection Esp as -> ->. reflexivity.
      * split; [intros H; discriminate|].
        intros (_ & [X|X]); [discriminate|lia].
    + simpl. split.
      * split; [intros H; discriminate|].
        intros (-> & _ & Hu & Hc'). rewrite count_sep_app in L. lia.
      * split; [intros H; discriminate|].
        intros (_ & [X|X]); [discriminate|lia].
  - split.
    + split; [intros H; discriminate|].
      intros (-> & Hu & _). rewrite (startswith_app_r _ _ _ Hu) in Hs.
      discriminate.
    + split; [intros H; injection H as ->; auto|].
      intros (-> & _). reflexivity.
Qed.

(** X2: [get_pin_content] fails exactly when the override it parses (the
    source override, else the patch-queue override) starts with [ssh://]
    and holds two or more ['#']; the failure is always a [ValueError],
    never the [KeyError] of the [Archive0] copy. *)
Theorem get_pin_content_errors args spec :
  ((exists e, get_pin_content args spec = Err e) <->
   exists arg, active_override args = Some arg /\
               startswith "ssh://" arg = true /\ 2 <= count "#" arg) /\
  (forall e, get_pin_content args spec = Err e -> exists m, e = ValueError m).
Proof.
  unfold get_pin_content, active_override.
  assert (Hsub : forall arg,
    (exists e, repo_or_path arg = Err e) <->
    exists a, Some arg = Some a /\ startswith "ssh://" a = true /\
              2 <= count "#" a).
  { intros arg. rewrite repo_or_path_err_any. split.
    - intros H. exists arg. auto.
    - intros (a & Ha & H). injection Ha as <-. exact H. }
  destruct (source args) as [s|].
  - rewrite <- Hsub.
    destruct (repo_or_path s) as [[u c]|e] eqn:R.
    + split; [split; intros (e & He); discriminate|].
      intros e He; discriminate.
    + split; [split; intros _; eexists; reflexivity|].
      intros e' He'. injection He' as <-.
      apply (repo_or_path_err_value_error s). exact R.
  - destruct (patchqueue args) as [pq|].
    + rewrite <- Hsub.
      destruct (repo_or_path pq) as [[u c]|e] eqn:R.
      * rewrite dict_get_set_same.
        split; [split; intros (e & He); discriminate|].
        intros e He; discriminate.
      * split; [split; intros _; eexists; reflexivity|].
        intros e' He'. injection He' as <-.
        apply (repo_or_path_err_value_error pq). exact R.
    + split; [split; [intros (e & He); discriminate|intros (a & Ha & _); discriminate]|].
      intros e He; discriminate.
Qed.

(** ** The resource loop, further *)

(** The loop never removes a key. *)
Lemma fold_pin_step_keeps args res pin k :
  dict_get k pin <> None ->
  dict_get k (fold_left (pin_step args) res pin) <> None.
Proof.
  revert pin. induction res as [|[name src] res IH]; intros pin Hk;
    cbn [fold_left]; [exact Hk|].
  apply IH.
  destruct (pin_step_cases args pin name src)
    as [[-> _]|[_ (e & -> & _)]]; [exact Hk|].
  rewrite dict_get_set. destruct (String.eqb k name); [discriminate|exact Hk].
Qed.

Lemma fold_pin_step_keeps_dict args res pin k e :
  dict_get k pin = Some (PDict e) ->
  exists e', dict_get k (fold_left (pin_step args) res pin) = Some (PDict e').
Proof.
  intros Hk.
  destruct (dict_get k (fold_left (pin_step args) res pin)) as [v|] eqn:E.
  - destruct (fold_pin_step_inv args
                (fun k' v => k' = k -> exists e', v = PDict e')
                res pin) with (k := k) (v := v) as (e' & ->); try exact E;
      try reflexivity.
    + intros k' v' H ->. rewrite Hk in H. injection H as <-. exists e.
      reflexivity.
    + intros name src e' _ _ _ _. exists e'. reflexivity.
    + exists e'. reflexivity.
  - exfalso. apply (fold_pin_step_keeps args res pin k); [|exact E].
    rewrite Hk. discriminate.
Qed.

(** A kept name ends up holding an entry dict, duplicates or not. *)
Lemma fold_pin_step_kept_dict args res pin k src :
  In (k, src) res -> kept args k ->
  exists e, dict_get k (fold_left (pin_step args) res pin) = Some (PDict e).
Proof.
  revert pin. induction res as [|[name s] res IH]; intros pin Hin Hk;
    cbn [fold_left]; [destruct Hin|].
  destruct Hin as [Heq|Hin]; [|apply IH; assumption].
  injection Heq as -> ->.
  destruct (pin_step_cases args pin k src)
    as [[_ Hnk]|[_ (e & -> & _)]]; [contradiction|].
  apply (fold_pin_step_keeps_dict args res _ k e). apply dict_get_set_same.
Qed.

Lemma pin_step_kept_get args pin name src :
  kept args name ->
  dict_get name (pin_step args pin (name, src)) =
  Some (PDict (("URL", PStr (res_url src)) ::
               (if res_is_git src then [("commititsh", res_commitish src)]
                else []) ++
               (if res_is_archive src then [("prefix", res_prefix src)]
                else []))).
Proof.
  unfold pin_step, kept.
  destruct (patchqueue args) as [pq|];
  destruct (contains "PatchQueue" name) eqn:Hq;
  destruct (contains "Patch" name) eqn:Hp; simpl;
  intros [[H1|H1] [H2|H2]]; try discriminate;
  rewrite dict_get_set_same;
  destruct (res_is_git src), (res_is_archive src); reflexivity.
Qed.

Lemma fold_pin_step_exact args res pin name src :
  NoDup (map fst res) -> In (name, src) res -> kept args name ->
  dict_get name (fold_left (pin_step args) res pin) =
  Some (PDict (("URL", PStr (res_url src)) ::
               (if res_is_git src then [("commititsh", res_commitish src)]
                else []) ++
               (if res_is_archive src then [("prefix", res_prefix src)]
                else []))).
Proof.
  revert pin. induction res as [|[n s] res IH]; intros pin Hnd Hin Hk;
    cbn [fold_left]; [destruct Hin|].
  simpl in Hnd. inversion Hnd as [|? ? Hn Hnd']; subst.
  destruct Hin as [Heq|Hin]; [|apply IH; assumption].
  injection Heq as -> ->.
  rewrite fold_pin_step_notin by exact Hn.
  apply pin_step_kept_get, Hk.
Qed.

(** The pin a run without a source override builds: the loop result, then
    under a patch-queue override its two keys. *)
Lemma get_pin_content_no_source args spec pin :
  source args = None -> get_pin_content args spec = Ok pin ->
  (patchqueue args = None /\
   pin = fold_left (pin_step args) (resources_dict spec)
           [("SchemaVersion", PStr "3")]) \/
  (exists pq v, patchqueue args = Some pq /\
   (forall k, k <> "PatchQueue0" -> k <> "Archive0" ->
      dict_get k pin = dict_get k (fold_left (pin_step args) (resources_dict spec)
                                    [("SchemaVersion", PStr "3")])) /\
   dict_get "PatchQueue0" pin = Some v /\ dict_get "Archive0" pin = Some v).
Proof.
  intros Hs H. unfold get_pin_content in H. rewrite Hs in H.
  destruct (patchqueue args) as [pq|].
  - destruct (repo_or_path pq) as [[url c]|err]; [|discriminate].
    rewrite dict_get_set_same in H. injection H as <-.
    right. exists pq, (PDict (override_entry url c)).
    split; [reflexivity|].
    split; [intros k H1 H2; rewrite !dict_get_set_other by congruence; reflexivity|].
    split; [rewrite dict_get_set_other by discriminate;
            apply dict_get_set_same|apply dict_get_set_same].
  - injection H as <-. left. split; reflexivity.
Qed.

(** X3: under a patch-queue override, no key naming a patch queue other
    than [PatchQueue0] is in the pin: every declared ["PatchQueue"]
    resource is dropped. *)
Theorem get_pin_content_pq_override_drops_queues args spec pq pin :
  source args = None -> patchqueue args = Some pq ->
  get_pin_content args spec = Ok pin ->
  forall k, contains "PatchQueue" k = true -> k <> "PatchQueue0" ->
    dict_get k pin = None.
Proof.
  intros Hs Hq H k Hk Hk0.
  assert (Ha : k <> "Archive0") by (intros ->; discriminate).
  destruct (get_pin_content_no_source args spec pin Hs H)
    as [[X _]|(pq' & v & _ & Hrest & _)]; [congruence|].
  rewrite (Hrest k Hk0 Ha).
  destruct (dict_get k _) as [w|] eqn:E; [exfalso|reflexivity].
  assert (Hf : contains "PatchQueue" k = false).
  { refine (fold_pin_step_inv args
              (fun k _ => contains "PatchQueue" k = false)
              _ _ _ _ k w E).
    - intros k' v' H'. simpl in H'.
      destruct (String.eqb k' "SchemaVersion") eqn:Ek; [|discriminate].
      apply String.eqb_eq in Ek; subst k'. reflexivity.
    - intros name src e _ [[X|X] _] _; [congruence|exact X]. }
  congruence.
Qed.

(** X4: without a source override, [SchemaVersion] keeps its value ["3"]
    exactly when no declared resource is named [SchemaVersion]; a resource
    of that name (names being distinct) overwrites it with its own entry. *)
Theorem get_pin_content_schema_version args spec pin :
  source args = None -> get_pin_content args spec = Ok pin ->
  (dict_get "SchemaVersion" pin = Some (PStr "3") <->
   ~ In "SchemaVersion" (map fst (resources_dict spec))) /\
  (NoDup (map fst (resources_dict spec)) ->
   forall src, In ("SchemaVersion", src) (resources_dict spec) ->
   dict_get "SchemaVersion" pin =
   Some (PDict (("URL", PStr (res_url src)) ::
                (if res_is_git src then [("commititsh", res_commitish src)]
                 else []) ++
                (if res_is_archive src then [("prefix", res_prefix src)]
                 else [])))).
Proof.
  intros Hs H.
  assert (Hfold : dict_get "SchemaVersion" pin =
                  dict_get "SchemaVersion"
                    (fold_left (pin_step args) (resources_dict spec)
                       [("SchemaVersion", PStr "3")])).
  { destruct (get_pin_content_no_source args spec pin Hs H)
      as [[_ ->]|(pq & v & _ & Hrest & _)]; [reflexivity|].
    apply Hrest; discriminate. }
  rewrite Hfold. split; [split|].
  3: { intros Hnd src Hin. apply fold_pin_step_exact; [exact Hnd|exact Hin|].
       split; [right|left]; reflexivity. }
  - intros Hv Hin. apply in_map_iff in Hin as ([k src] & Hk & Hin).
    simpl in Hk; subst k.
    destruct (fold_pin_step_kept_dict args (resources_dict spec)
                [("SchemaVersion", PStr "3")] "SchemaVersion" src Hin)
      as (e & He).
    { split; [right|left]; reflexivity. }
    rewrite He in Hv. discriminate.
  - intros Hn. rewrite fold_pin_step_notin by exact Hn. reflexivity.
Qed.

(** X5: without a source override, the keys of the pin are exactly
    [SchemaVersion], the names of the declared resources the loop keeps,
    and, under a patch-queue override, [PatchQueue0] and [Archive0]. *)
Theorem get_pin_content_keys args spec pin k :
  source args = None -> get_pin_content args spec = Ok pin ->
  (dict_get k pin <> None <->
   k = "SchemaVersion" \/
   (In k (map fst (resources_dict spec)) /\ kept args k) \/
   (patchqueue args <> None /\ (k = "PatchQueue0" \/ k = "Archive0"))).
Proof.
  intros Hs H.
  set (f := fold_left (pin_step args) (resources_dict spec)
              [("SchemaVersion", PStr "3")]).
  assert (Hf : dict_get k f <> None <->
               k = "SchemaVersion" \/
               (In k (map fst (resources_dict spec)) /\ kept args k)).
  { split.
    - destruct (dict_get k f) as [v|] eqn:E; [intros _|intros X; contradiction].
      refine (fold_pin_step_inv args
                (fun k _ => k = "SchemaVersion" \/
                            (In k (map fst (resources_dict spec)) /\ kept args k))
                _ _ _ _ k v E).
      + intros k' v' H'. simpl in H'.
        destruct (String.eqb k' "SchemaVersion") eqn:Ek; [|discriminate].
        left. apply String.eqb_eq, Ek.
      + intros name src e Hin Hk _. right. split; [|exact Hk].
        apply in_map_iff. exists (name, src). auto.
    - intros [->|[Hin Hk]].
      + apply fold_pin_step_keeps. discriminate.
      + apply in_map_iff in Hin as ([k' src] & Hk' & Hin). simpl in Hk'; subst k'.
        destruct (fold_pin_step_kept_dict args (resources_dict spec)
                    [("SchemaVersion", PStr "3")] k src Hin Hk) as (e & He).
        fold f in He. rewrite He. discriminate. }
  destruct (get_pin_content_no_source args spec pin Hs H)
    as [[Hq ->]|(pq & v & Hq & Hrest & Hp & Ha)].
  - fold f. rewrite Hf. rewrite Hq.
    split; [intros [X|X]; auto|].
    intros [X|[X|[X _]]]; auto. contradiction X. reflexivity.
  - destruct (String.eqb k "PatchQueue0") eqn:E1;
      [apply String.eqb_eq in E1; subst k|apply String.eqb_neq in E1].
    { rewrite Hp, Hq. split; [intros _; right; right; split; [discriminate|auto]|discriminate]. }
    destruct (String.eqb k "Archive0") eqn:E2;
      [apply String.eqb_eq in E2; subst k|apply String.eqb_neq in E2].
    { rewrite Ha, Hq. split; [intros _; right; right; split; [discriminate|auto]|discriminate]. }
    rewrite (Hrest k E1 E2). fold f. rewrite Hf.
    split; [intros [X|X]; auto|].
    intros [X|[X|[_ [X|X]]]]; auto; contradiction.
Qed.

(** X6: without a source override, the entry of a declared resource the
    loop keeps (and that no override replaces) is exactly
    [{URL: url}], then [commititsh] for the git classes, then [prefix] for
    archives: no other key. *)
Theorem get_pin_content_resource_entry args spec pin name src :
  source args = None ->
  NoDup (map fst (resources_dict spec)) ->
  get_pin_content args spec = Ok pin ->
  In (name, src) (resources_dict spec) -> kept args name ->
  (patchqueue args = None \/ name <> "Archive0") ->
  dict_get name pin =
  Some (PDict (("URL", PStr (res_url src)) ::
               (if res_is_git src then [("commititsh", res_commitish src)]
                else []) ++
               (if res_is_archive src then [("prefix", res_prefix src)]
                else []))).
Proof.
  intros Hs Hnd H Hin Hk Ha.
  rewrite <- (fold_pin_step_exact args (resources_dict spec)
                [("SchemaVersion", PStr "3")] name src Hnd Hin Hk).
  destruct (get_pin_content_no_source args spec pin Hs H)
    as [[_ ->]|(pq & v & Hq & Hrest & _)]; [reflexivity|].
  apply Hrest.
  - intros ->. destruct Hk as [[X|X] _]; [congruence|discriminate].
  - destruct Ha as [X|X]; [congruence|exact X].
Qed.

(** ** The rules tree, further *)

(** X7: the dh_install stanza reads nothing of [files_from_spec]'s result
    but the package's own [<pkg>-%exclude] entry: the file lists and the
    entries of other packages, and the spec path, play no part once that
    entry is the same. *)
Theorem rules_dh_install_rule_exclude_only ext ext' spec specpath specpath' :
  map_package_name ext' = map_package_name ext ->
  expandMacro ext' = expandMacro ext ->
  normpath ext' = normpath ext ->
  dict_get (map_package_name ext (sourceHeader spec) ++ "-%exclude")
    (files_from_spec ext' (map_package_name ext (sourceHeader spec)) specpath') =
  dict_get (map_package_name ext (sourceHeader spec) ++ "-%exclude")
    (files_from_spec ext (map_package_name ext (sourceHeader spec)) specpath) ->
  rules_dh_install_rule ext' spec specpath' = rules_dh_install_rule ext spec specpath.
Proof.
  intros Hm He Hn Hf. unfold rules_dh_install_rule. cbv zeta.
  rewrite Hm, He, Hn, Hf. reflexivity.
Qed.

Lemma rules_from_spec_keys ext spec specpath :
  map fst (rules_from_spec ext spec specpath) =
  (["debian/rules"] ++
   (if String.eqb (build spec) "" then [] else ["debian/build.sh"]) ++
   ["debian/install.sh"; "debian/clean.sh"; "setup.cfg"])%list.
Proof.
  unfold rules_from_spec, rules_build_from_spec.
  destruct (build spec) as [|c b]; vm_compute; reflexivity.
Qed.

(** X8: the tree has exactly the paths [debian/rules],
    [debian/build.sh] (only for a non-empty build recipe),
    [debian/install.sh], [debian/clean.sh] and [setup.cfg], each once, in
    that order of first append: no other file is generated. *)
Theorem rules_from_spec_paths ext spec specpath :
  map fst (rules_from_spec ext spec specpath) =
  (["debian/rules"] ++
   (if String.eqb (build spec) "" then [] else ["debian/build.sh"]) ++
   ["debian/install.sh"; "debian/clean.sh"; "setup.cfg"])%list /\
  NoDup (map fst (rules_from_spec ext spec specpath)).
Proof.
  rewrite rules_from_spec_keys. split; [reflexivity|].
  destruct (String.eqb (build spec) "");
    repeat constructor; simpl; intuition discriminate.
Qed.

(** X9: [debian/rules] depends on the spec only through its source header,
    its clean recipe and whether its build recipe is empty: the build and
    install recipes themselves go to the helper scripts, and the declared
    resources play no part. *)
Theorem rules_file_spec_dependence ext spec spec' specpath :
  sourceHeader spec' = sourceHeader spec -> clean spec' = clean spec ->
  String.eqb (build spec') "" = String.eqb (build spec) "" ->
  dict_get "debian/rules" (rules_from_spec ext spec' specpath) =
  dict_get "debian/rules" (rules_from_spec ext spec specpath).
Proof.
  intros Hh Hc Hb. rewrite !rules_file, Hb.
  unfold rules_dh_install_rule, rules_clean_rule. rewrite Hh, Hc.
  reflexivity.
Qed.

Lemma sub_bol_tail_noline ins l : count "010" l = 0 -> sub_bol_tail ins l = l.
Proof.
  induction l as [|c l IH]; simpl; intros H; [reflexivity|].
  destruct (Ascii.eqb c "010"); simpl in H; [discriminate|].
  rewrite (IH H). reflexivity.
Qed.

Lemma re_sub_bol_lines ins lines :
  lines <> [] -> Forall (fun l => count "010" l = 0) lines ->
  re_sub_bol ins (String.concat nl lines) =
  String.concat nl (map (String.append ins) lines).
Proof.
  induction lines as [|l ls IH]; intros Hne Hf; [contradiction|].
  apply Forall_cons_iff in Hf as [Hl Hls].
  destruct ls as [|l2 ls].
  - simpl. unfold re_sub_bol. rewrite sub_bol_tail_noline by exact Hl.
    reflexivity.
  - change (String.concat nl (l :: l2 :: ls))
      with (l ++ nl ++ String.concat nl (l2 :: ls)).
    change (String.concat nl (map (String.append ins) (l :: l2 :: ls)))
      with ((ins ++ l) ++ nl ++
            String.concat nl (map (String.append ins) (l2 :: ls))).
    rewrite <- IH by (discriminate || exact Hls).
    unfold re_sub_bol. rewrite !sub_bol_tail_app, sub_bol_tail_noline by exact Hl.
    replace (sub_bol_tail ins nl) with (nl ++ ins)
      by (cbn; rewrite str_app_nil_r; reflexivity).
    rewrite !str_app_assoc. reflexivity.
Qed.

(** X10: the clean stanza indents every line of the stripped clean recipe
    with one tab: for a stripped recipe made of the lines [lines], the
    stanza is its three header lines, the lines each prefixed by a tab and
    joined by newlines, then two newlines. *)
Theorem rules_clean_rule_lines spec lines :
  lines <> [] -> Forall (fun l => count "010" l = 0) lines ->
  strip (clean spec) = String.concat nl lines ->
  rules_clean_rule spec =
  ln ".PHONY: override_dh_auto_clean" ++ ln "override_dh_auto_clean:" ++
  ln (tab ++ "debian/clean.sh") ++
  String.concat nl (map (String.append tab) lines) ++ nl ++ nl.
Proof.
  intros Hne Hf Hs. unfold rules_clean_rule. rewrite Hs, re_sub_bol_lines by assumption.
  reflexivity.
Qed.

Lemma lstrip_all_space s :
  forallb isspace (list_ascii_of_string s) = true -> lstrip s = "".
Proof.
  induction s as [|c s IH]; simpl; intros H; [reflexivity|].
  apply andb_prop in H as [Hc Hs]. rewrite Hc. apply IH, Hs.
Qed.

(** X11: a clean recipe that is empty or all whitespace still yields a
    clean stanza, whose body is a line holding a single tab. *)
Theorem rules_clean_rule_blank spec :
  forallb isspace (list_ascii_of_string (clean spec)) = true ->
  rules_clean_rule spec =
  ln ".PHONY: override_dh_auto_clean" ++ ln "override_dh_auto_clean:" ++
  ln (tab ++ "debian/clean.sh") ++ tab ++ nl ++ nl.
Proof.
  intros H. unfold rules_clean_rule, strip. rewrite lstrip_all_space by exact H.
  reflexivity.
Qed.

Lemma dict_get_in {V} k (v : V) d : dict_get k d = Some v -> In k (map fst d).
Proof.
  induction d as [|[k' v'] d IH]; simpl; [discriminate|].
  destruct (String.eqb k k') eqn:E; intros H.
  - left. symmetry. apply String.eqb_eq, E.
  - right. apply IH, H.
Qed.

Lemma contains_unset_app y :
  contains BUILD_ROOT (ln "unset CFLAGS" ++ y) = contains BUILD_ROOT y.
Proof. reflexivity. Qed.

(** X12: every generated file other than [debian/rules] (the helper
    scripts and [setup.cfg]) is free of [$RPM_BUILD_ROOT]. *)
Theorem generated_files_no_build_root ext spec specpath path c perm :
  dict_get path (rules_from_spec ext spec specpath) = Some (c, perm) ->
  path <> "debian/rules" ->
  contains BUILD_ROOT c = false.
Proof.
  intros H Hr. pose proof (dict_get_in _ _ _ H) as Hin.
  rewrite rules_from_spec_keys in Hin.
  destruct (String.eqb (build spec) "") eqn:Eb; simpl in Hin;
    repeat destruct Hin as [<-|Hin]; try contradiction; try (destruct Hin);
    first
      [ rewrite build_helper_file, Eb in H; injection H as <- _;
        unfold rules_build_helper; rewrite contains_shebang_app,
          contains_unset_app; apply replace_build_root_gone
      | rewrite install_helper_file in H; injection H as <- _;
        unfold rules_install_helper; rewrite contains_shebang_app;
        apply replace_build_root_gone
      | rewrite clean_helper_file in H; injection H as <- _;
        unfold rules_clean_helper; rewrite contains_shebang_app;
        apply replace_build_root_gone
      | rewrite setup_cfg_file in H; injection H as <- _; reflexivity ].
Qed.

(** ** Witnesses of the further properties *)

Lemma get_pin_content_pq_override_drops_queues_witness :
  dict_get "PatchQueue1"
    (pin_of pq_override_args
       {| resources_dict := (resources_dict pq_spec ++
                              [("PatchQueue1", git_blob "git://pq1" "f")])%list;
          build := ""; install := ""; clean := "";
          sourceHeader := [] |}) = None.
Proof.
  apply (get_pin_content_pq_override_drops_queues pq_override_args
           {| resources_dict := (resources_dict pq_spec ++
                                  [("PatchQueue1", git_blob "git://pq1" "f")])%list;
              build := ""; install := ""; clean := "";
              sourceHeader := [] |}
           "ssh://pq#v2");
    first [reflexivity | discriminate].
Defined.

Lemma get_pin_content_schema_version_witness :
  dict_get "SchemaVersion"
    (pin_of no_override_args
       {| resources_dict := [("SchemaVersion", plain_file "x")];
          build := ""; install := ""; clean := "";
          sourceHeader := [] |}) = Some (PDict [("URL", PStr "x")]).
Proof.
  apply (proj2 (get_pin_content_schema_version no_override_args
                  {| resources_dict := [("SchemaVersion", plain_file "x")];
                     build := ""; install := ""; clean := "";
                     sourceHeader := [] |} _ eq_refl eq_refl)
               ltac:(repeat constructor; simpl; tauto)
               (plain_file "x")).
  simpl. auto.
Defined.

Lemma get_pin_content_keys_witness :
  dict_get "Archive0" (pin_of pq_override_args pq_spec) <> None <->
  "Archive0" = "SchemaVersion" \/
  (In "Archive0" (map fst (resources_dict pq_spec)) /\
   kept pq_override_args "Archive0") \/
  (patchqueue pq_override_args <> None /\
   ("Archive0" = "PatchQueue0" \/ "Archive0" = "Archive0")).
Proof.
  exact (get_pin_content_keys pq_override_args pq_spec _ "Archive0"
           eq_refl eq_refl).
Defined.

Lemma get_pin_content_resource_entry_witness :
  dict_get "Archive0" (pin_of no_override_args pq_spec) =
  Some (PDict [("URL", PStr "archive.tar.gz"); ("prefix", PStr "foo-1.0")]).
Proof.
  apply (get_pin_content_resource_entry no_override_args pq_spec _ "Archive0"
           (archive "archive.tar.gz" "foo-1.0")).
  - reflexivity.
  - repeat constructor; simpl; intuition discriminate.
  - reflexivity.
  - simpl. auto.
  - split; left; reflexivity.
  - left. reflexivity.
Defined.

Lemma rules_file_spec_dependence_witness :
  dict_get "debian/rules"
    (rules_from_spec sample_ext
       {| resources_dict := [];
          build := "make all"; install := "cp a b";
          clean := clean sample_spec;
          sourceHeader := sourceHeader sample_spec |} "SPECS/foo.spec") =
  dict_get "debian/rules" (rules_from_spec sample_ext sample_spec "SPECS/foo.spec").
Proof. apply rules_file_spec_dependence; reflexivity. Defined.

Lemma rules_clean_rule_lines_witness :
  rules_clean_rule
    {| resources_dict := []; build := ""; install := "";
       clean := "  rm -rf $RPM_BUILD_ROOT" ++ nl ++ "rm -f x" ++ nl;
       sourceHeader := [] |} =
  ln ".PHONY: override_dh_auto_clean" ++ ln "override_dh_auto_clean:" ++
  ln (tab ++ "debian/clean.sh") ++
  (tab ++ "rm -rf $RPM_BUILD_ROOT") ++ nl ++ (tab ++ "rm -f x") ++ nl ++ nl.
Proof.
  apply (rules_clean_rule_lines _ ["rm -rf $RPM_BUILD_ROOT"; "rm -f x"]).
  - discriminate.
  - repeat constructor.
  - reflexivity.
Defined.

Lemma rules_clean_rule_blank_witness :
  rules_clean_rule pq_spec =
  ln ".PHONY: override_dh_auto_clean" ++ ln "override_dh_auto_clean:" ++
  ln (tab ++ "debian/clean.sh") ++ tab ++ nl ++ nl.
Proof. apply rules_clean_rule_blank. reflexivity. Defined.

Lemma generated_files_no_build_root_witness :
  contains BUILD_ROOT
    (ln "#!/bin/sh" ++ "make install DESTDIR=${DESTDIR}" ++ nl ++
     "rm -f ${DESTDIR}/usr/lib/*.la") = false.
Proof.
  apply (generated_files_no_build_root sample_ext sample_spec "SPECS/foo.spec"
           "debian/install.sh" _ (Tree.PermMode mode_755)).
  - vm_compute. reflexivity.
  - discriminate.
Defined.

Lemma rules_dh_install_rule_exclude_only_witness :
  rules_dh_install_rule
    {| map_package_name := fun _ => "foo";
       files_from_spec := fun _ _ => [("foo", ["/usr/bin/foo"]);
                                      ("bar-%exclude", ["/usr/lib/x"])];
       expandMacro := fun s => s;
       normpath := fun s => s |} sample_spec "SPECS/other.spec" =
  rules_dh_install_rule sample_ext sample_spec "SPECS/foo.spec".
Proof. apply rules_dh_install_rule_exclude_only; reflexivity. Defined.
